(** * Omnidirectional-robot Jacobian simulation: a shallow embedding

    The development follows [jacobian_simulation.py] function by function.

    Numbers.  The program computes with IEEE doubles (Python [float],
    [numpy.float64]) and with integers ([numpy.int64] frame numbers).  Doubles
    are idealised as real numbers [R]: [np.cos], [np.sin] are [cos], [sin],
    [np.radians x] is [x * PI / 180], and rounding is not modelled.  Integers
    are [Z].

    Errors.  Exceptions are values of [exn]; fallible code lives in the
    [result] monad.  Python's [/] on two Python floats raises
    [ZeroDivisionError] on a zero divisor, numpy's scalar [/] does not.
    [UnicodeDecodeError] is a subclass of [ValueError]: a handler for
    [ValueError] catches both.

    State.  The module-level variables of the script are the record
    [Globals]; functions that read them take the record, functions that
    assign them ([global ...]) return the updated record. *)

From Stdlib Require Import Reals Lra Lia ZArith String Ascii List.
From stdpp Require Import base list.
Import ListNotations.

Open Scope R_scope.

(** ** Exceptions and the error monad *)

Inductive exn : Type :=
  | ZeroDivisionError
  | ValueError
  | UnicodeDecodeError
  | EOFError
  | IndexError.

(** What [except ValueError] catches: the class and its subclasses. *)
Definition is_ValueError (e : exn) : bool :=
  match e with
  | ValueError | UnicodeDecodeError => true
  | _ => false
  end.

Inductive result (A : Type) : Type :=
  | Ok (a : A)
  | Raise (e : exn).

Arguments Ok {A} a.
Arguments Raise {A} e.

#[global] Instance result_ret : MRet result := fun A a => Ok a.

#[global] Instance result_bind : MBind result :=
  fun A B f m => match m with Ok a => f a | Raise e => Raise e end.

(** A [for] loop over a list whose body may raise: the loop state is threaded
    through the iterations, the first exception ends the loop. *)
Fixpoint for_each {A S : Type} (body : S -> A -> result S) (xs : list A) (s : S)
  : result S :=
  match xs with
  | [] => Ok s
  | x :: xs' => s' ← body s x; for_each body xs' s'
  end.

(** Python's [enumerate]. *)
Fixpoint enumerate_from {A : Type} (n : nat) (xs : list A) : list (nat * A) :=
  match xs with
  | [] => []
  | x :: xs' => (n, x) :: enumerate_from (S n) xs'
  end.

Definition enumerate {A : Type} (xs : list A) : list (nat * A) :=
  enumerate_from 0 xs.

(** ** Numeric primitives *)

(** [np.radians]: degrees to radians. *)
Definition radians (deg : R) : R := deg * PI / 180.

(** [a / b] where [a] is a numpy scalar: numpy never raises on a zero
    divisor (it warns and yields an infinity or a NaN).  Those values have no
    real counterpart; composed with [py_div] below on the same divisor, as
    [construct_jacobian] does, they are never observed. *)
Definition np_div (a b : R) : R := a / b.

(** [a / b] on two Python floats. *)
Definition py_div (a b : R) : result R :=
  if Req_dec_T b 0 then Raise ZeroDivisionError else Ok (a / b).

(** [x % m] on floats: the remainder has the sign of the divisor, that is
    [x - m * floor (x / m)]. *)
Definition py_fmod (x m : R) : R := x - m * IZR (Int_part (x / m)).

(** ** Module-level state *)

Record Globals : Type := mkGlobals {
  WHEEL_RADIUS : R;
  WHEEL_WIDTH : R;
  ROBOT_RADIUS : R;
  OMEGA : R;
  WHEEL_ANGLES : list R;
  F_WHEEL_ANGLES : list R;
  PLOT_BOTH : bool;
  paused : bool
}.

(** The values the script assigns at import time (lines 9-16). *)
Definition initial_globals : Globals := {|
  WHEEL_RADIUS := 0.148;
  WHEEL_WIDTH := 0.044;
  ROBOT_RADIUS := 0.195;
  OMEGA := 0;
  WHEEL_ANGLES := [radians 60; radians 180; radians 300];
  F_WHEEL_ANGLES := [radians 45; radians 135; radians 225; radians 315];
  PLOT_BOTH := false;
  paused := false
|}.

(** ** [construct_jacobian] *)

(** A two-dimensional [ndarray] as the list of its rows. *)
Abbreviation ndarray := (list (list R)).

(** [np.zeros((n, m))]. *)
Definition np_zeros (n m : nat) : ndarray := replicate n (replicate m 0).

(** [j[i, k] = v]: an index out of range raises [IndexError]. *)
Definition setitem (j : ndarray) (i k : nat) (v : R) : result ndarray :=
  match j !! i with
  | Some row =>
      if decide (k < length row)%nat
      then Ok (<[i := <[k := v]> row]> j)
      else Raise IndexError
  | None => Raise IndexError
  end.

(** The angle list [construct_jacobian] and [plot_robot] select. *)
Definition wheel_angles (g : Globals) (use_four_wheels : bool) : list R :=
  if use_four_wheels then F_WHEEL_ANGLES g else WHEEL_ANGLES g.

(** The body of the loop at lines 62-65. *)
Definition jacobian_loop_body (g : Globals) (j : ndarray) (ia : nat * R)
  : result ndarray :=
  let '(i, angle) := ia in
  j ← setitem j i 0 (np_div (cos angle) (WHEEL_RADIUS g));
  j ← setitem j i 1 (np_div (sin angle) (WHEEL_RADIUS g));
  c ← py_div (ROBOT_RADIUS g) (WHEEL_RADIUS g);
  setitem j i 2 c.

Definition construct_jacobian (g : Globals) (use_four_wheels : bool)
  : result ndarray :=
  let angles := wheel_angles g use_four_wheels in
  let j := np_zeros (length angles) 3 in
  for_each (jacobian_loop_body g) (enumerate angles) j.

(** ** [convert_to_body_frame] *)

Definition convert_to_body_frame (speed angle orientation : R) : R * R :=
  let angle_rad := radians angle in
  let orientation_rad := radians orientation in
  let v_bx_0 := speed * cos (angle_rad - orientation_rad) in
  let v_by_0 := speed * sin (angle_rad - orientation_rad) in
  let v_bx := - v_by_0 in
  let v_by := v_bx_0 in
  (v_bx, v_by).

(** ** [compute_wheel_velocities_jacobian] *)

(** The inner product of a matrix row with a vector. *)
Fixpoint inner (row v : list R) : R :=
  match row, v with
  | a :: row', b :: v' => a * b + inner row' v'
  | _, _ => 0
  end.

(** [np.dot(j, v)] for a two-dimensional [j] and a one-dimensional [v];
    the shapes must agree, otherwise numpy raises [ValueError]. *)
Definition np_dot (j : ndarray) (v : list R) : result (list R) :=
  if forallb (fun row => Nat.eqb (length row) (length v)) j
  then Ok (map (fun row => inner row v) j)
  else Raise ValueError.

Definition compute_wheel_velocities_jacobian
    (g : Globals) (speed angle orientation omega : R) (use_four_wheels : bool)
  : result (list R) :=
  let '(v_bx, v_by) := convert_to_body_frame speed angle orientation in
  let v := [v_bx; v_by; omega] in
  j ← construct_jacobian g use_four_wheels;
  np_dot j v.

(** ** Rendering: [plot_robot] and [plot_text]

    Drawing is outside the kinematic core.  An [Axes] object is represented by
    the history of what was done to it: [ax.clear()] calls, and the picture
    drawn by [plot_robot], which is a function of the arguments of
    [plot_robot] alone and is represented by them. *)

Record Scene : Type := mkScene {
  scene_wheel_velocities : list R;
  scene_orientation : R;
  scene_speed : R;
  scene_angle : Z;
  scene_use_four_wheels : bool
}.

Inductive AxesCall : Type :=
  | ax_clear
  | ax_draw (s : Scene).

Abbreviation Axes := (list AxesCall).

(** What the axes currently show: the last picture, unless cleared since. *)
Definition shown (ax : Axes) : option Scene :=
  match last ax with
  | Some (ax_draw s) => Some s
  | _ => None
  end.

(** All pictures drawn so far, oldest first. *)
Definition drawn (ax : Axes) : list Scene :=
  omap (fun c => match c with ax_draw s => Some s | ax_clear => None end) ax.

Definition plot_robot (ax : Axes) (wheel_velocities : list R) (orientation speed : R)
    (angle : Z) (use_four_wheels : bool) : Axes :=
  ax ++ [ax_clear;
         ax_draw (mkScene wheel_velocities orientation speed angle use_four_wheels)].

(** ** [toggle_pause] *)

(** A matplotlib key event; [key] is [None] when the key is not recognised. *)
Record KeyEvent : Type := mkKeyEvent { key : option string }.

Definition set_paused (b : bool) (g : Globals) : Globals :=
  mkGlobals (WHEEL_RADIUS g) (WHEEL_WIDTH g) (ROBOT_RADIUS g) (OMEGA g)
            (WHEEL_ANGLES g) (F_WHEEL_ANGLES g) (PLOT_BOTH g) b.

Definition toggle_pause (g : Globals) (event : KeyEvent) : Globals :=
  match key event with
  | Some k => if String.eqb k " " then set_paused (negb (paused g)) g else g
  | None => g
  end.

(** ** [update] *)

Definition update (g : Globals) (ax : Axes) (frame : Z) (omega : R)
    (use_four_wheels : bool) : result Axes :=
  if negb (paused g) then
    let ax := ax ++ [ax_clear] in
    let speed := 0.5 * (1 + sin (radians (IZR frame))) in
    let angle := (frame mod 360)%Z in
    let orientation_change_rate := omega * IZR frame in
    let orientation := py_fmod orientation_change_rate 360 in
    wheel_velocities ←
      compute_wheel_velocities_jacobian g speed (IZR angle) orientation omega
                                        use_four_wheels;
    Ok (plot_robot ax wheel_velocities orientation speed angle use_four_wheels)
  else Ok ax.

(** ** [get_user_inputs] *)

(** [str.lower], on the ASCII letters. *)
Definition lower_ascii (c : ascii) : ascii :=
  let n := nat_of_ascii c in
  if (65 <=? n)%nat && (n <=? 90)%nat then ascii_of_nat (n + 32) else c.

Fixpoint py_lower (s : string) : string :=
  match s with
  | EmptyString => EmptyString
  | String c s' => String (lower_ascii c) (py_lower s')
  end.

(** Standard input as the program meets it: what each successive call of
    [input] finds, a line of text or bytes that do not decode. *)
Inductive Line : Type :=
  | line (s : string)
  | undecodable.

(** [input(prompt)]: the next line of standard input; [EOFError] at its end,
    [UnicodeDecodeError] on a line that does not decode.  The result comes
    with the input that is left, which a handler may go on reading after an
    exception.  The prompt, like every [print], only writes to the terminal
    and is not modelled. *)
Definition input (stdin : list Line) : result string * list Line :=
  match stdin with
  | [] => (Raise EOFError, [])
  | line s :: rest => (Ok s, rest)
  | undecodable :: rest => (Raise UnicodeDecodeError, rest)
  end.

Definition set_PLOT_BOTH (b : bool) (g : Globals) : Globals :=
  mkGlobals (WHEEL_RADIUS g) (WHEEL_WIDTH g) (ROBOT_RADIUS g) (OMEGA g)
            (WHEEL_ANGLES g) (F_WHEEL_ANGLES g) b (paused g).

Definition set_OMEGA (w : R) (g : Globals) : Globals :=
  mkGlobals (WHEEL_RADIUS g) (WHEEL_WIDTH g) (ROBOT_RADIUS g) w
            (WHEEL_ANGLES g) (F_WHEEL_ANGLES g) (PLOT_BOTH g) (paused g).

Section UserInput.

(** Python's built-in [float] on a string: [None] stands for [ValueError].
    The built-in is not part of the repository; every result below holds
    for any such parser.  (The non-finite values [float] accepts, [inf] and
    [nan], have no real counterpart and are outside the idealisation.) *)
Variable py_float : string -> option R.

(** [float(s or OMEGA)]: an empty answer selects the number [OMEGA], whose
    conversion cannot fail. *)
Definition float_or (s : string) (default : R) : option R :=
  if String.eqb s "" then Some default else py_float s.

(** The [try] block, lines 28-32: the value of [input_omega] or the
    exception that ended the block, with the module state and the input
    as they are at that point. *)
Definition try_block (g : Globals) (stdin : list Line)
  : result R * Globals * list Line :=
  match input stdin with
  | (Raise e, stdin) => (Raise e, g, stdin)
  | (Ok answer, stdin) =>
      let g := set_PLOT_BOTH (String.eqb (py_lower answer) "y") g in
      match input stdin with
      | (Raise e, stdin) => (Raise e, g, stdin)
      | (Ok answer, stdin) =>
          match float_or answer (OMEGA g) with
          | Some w => (Ok w, g, stdin)
          | None => (Raise ValueError, g, stdin)
          end
      end
  end.

(** Lines 19-46.  The handler [except ValueError] catches the [ValueError]
    of [float] and the [UnicodeDecodeError] of the first two prompts; an
    [EOFError] is not caught, and the third prompt is outside the [try]. *)
Definition get_user_inputs (g : Globals) (stdin : list Line)
  : result (bool * Globals * list Line) :=
  let '(outcome, g, stdin) := try_block g stdin in
  '(input_omega, g) ←
    match outcome with
    | Ok input_omega => Ok (input_omega, g)
    | Raise e =>
        if is_ValueError e then Ok (OMEGA g, set_PLOT_BOTH false g)
        else Raise e
    end;
  let g := set_OMEGA input_omega g in
  if PLOT_BOTH g then Ok (false, g, stdin)
  else
    match input stdin with
    | (Ok answer, stdin) => Ok (String.eqb (py_lower answer) "y", g, stdin)
    | (Raise e, _) => Raise e
    end.

End UserInput.

(** ** The animation host: [FuncAnimation] and [run_animation]

    matplotlib is not part of the repository.  [FuncAnimation] is modelled as
    its timer drives it: every timer tick passes the next item of the frame
    sequence to the callback together with [fargs].  A tick that finds the
    sequence exhausted re-initialises the animation when [repeat] is set:
    it draws the first frame again and installs a fresh sequence, so that the
    next tick passes the first frame once more.  (When the figure is first
    shown the first frame is drawn once before the timer starts; that call is
    not a timer tick.) *)

(** [np.arange(start, stop, 1)]. *)
Definition np_arange (start stop : Z) : list Z :=
  map (fun k => (start + Z.of_nat k)%Z) (seq 0 (Z.to_nat (stop - start))).

Record FuncAnimation : Type := mkFuncAnimation {
  fargs_ax : Axes;
  fargs_omega : R;
  fargs_use_four_wheels : bool;
  frames : list Z;
  repeat : bool;
  frame_seq : list Z          (* what is left of the current cycle *)
}.

(** One timer tick of the frame source: the frame passed to the callback and
    the sequence left for the next tick, or [None] when nothing is drawn.  On
    an exhausted sequence with [repeat] set the first frame is redrawn and
    the whole sequence is installed anew. *)
Definition next_frame (frames : list Z) (repeat : bool) (frame_seq : list Z)
  : option (Z * list Z) :=
  match frame_seq with
  | f :: rest => Some (f, rest)
  | [] =>
      if repeat then
        match frames with
        | f :: _ => Some (f, frames)
        | [] => None
        end
      else None
  end.

(** The frame index passed to the callback on tick number [k] (from 0) by a
    frame source in state [frame_seq]. *)
Fixpoint frame_at (frames : list Z) (repeat : bool) (frame_seq : list Z) (k : nat)
  : option Z :=
  match next_frame frames repeat frame_seq with
  | None => None
  | Some (f, rest) =>
      match k with
      | O => Some f
      | S k' => frame_at frames repeat rest k'
      end
  end.

(** One timer tick of an animation whose callback is [update]. *)
Definition animation_step (g : Globals) (a : FuncAnimation) : result FuncAnimation :=
  match next_frame (frames a) (repeat a) (frame_seq a) with
  | None => Ok a
  | Some (frame, rest) =>
      ax ← update g (fargs_ax a) frame (fargs_omega a) (fargs_use_four_wheels a);
      Ok (mkFuncAnimation ax (fargs_omega a) (fargs_use_four_wheels a)
                          (frames a) (repeat a) rest)
  end.

(** [FuncAnimation(fig, update, fargs=(ax, omega, flag),
                   frames=np.arange(0, 720, 1), interval=50, repeat=True)]
    on fresh axes. *)
Definition new_animation (omega : R) (use_four_wheels : bool) : FuncAnimation :=
  let frames := np_arange 0 720 in
  mkFuncAnimation [] omega use_four_wheels frames true frames.

(** The frame index of tick [k] in the animations [run_animation] creates. *)
Definition frame_of_tick (k : nat) : option Z :=
  let a := new_animation 0 false in
  frame_at (frames a) (repeat a) (frame_seq a) k.

(** The figure [plt.show()] runs: the module state and the animations drawing
    into the figure. *)
Record Figure : Type := mkFigure {
  fig_globals : Globals;
  fig_animations : list FuncAnimation
}.

Section RunAnimation.

Variable py_float : string -> option R.

(** Lines 278-302, up to [plt.show()]. *)
Definition run_animation (g : Globals) (stdin : list Line) : result Figure :=
  '(use_four_wheels, g, _) ← get_user_inputs py_float g stdin;
  if PLOT_BOTH g then
    Ok (mkFigure g [new_animation (OMEGA g) false; new_animation (OMEGA g) true])
  else
    Ok (mkFigure g [new_animation (OMEGA g) use_four_wheels]).

End RunAnimation.

(** The events [plt.show()] dispatches: a timer tick of animation number [i],
    or a key press, which is connected to [toggle_pause]. *)
Inductive Event : Type :=
  | timer_event (i : nat)
  | key_press_event (e : KeyEvent).

Definition dispatch (fig : Figure) (ev : Event) : result Figure :=
  match ev with
  | key_press_event e =>
      Ok (mkFigure (toggle_pause (fig_globals fig) e) (fig_animations fig))
  | timer_event i =>
      match fig_animations fig !! i with
      | None => Ok fig
      | Some a =>
          a' ← animation_step (fig_globals fig) a;
          Ok (mkFigure (fig_globals fig) (<[i := a']> (fig_animations fig)))
      end
  end.

(** [plt.show()] over a finite prefix of the event stream. *)
Definition plt_show (fig : Figure) (events : list Event) : result Figure :=
  for_each dispatch events fig.

(** ** Definitions used in the statements *)

(** The row the specification prescribes for a wheel mounted at angle
    [theta]: [cos theta / r; sin theta / r; R / r]. *)
Definition spec_row (g : Globals) (theta : R) : list R :=
  [cos theta / WHEEL_RADIUS g; sin theta / WHEEL_RADIUS g;
   ROBOT_RADIUS g / WHEEL_RADIUS g].

(** One call of [update] as the animation host makes it. *)
Definition update_call (g : Globals) (ax : Axes) (call : Z * R * bool) : result Axes :=
  let '(frame, omega, use_four_wheels) := call in
  update g ax frame omega use_four_wheels.

(** Configurations the specification calls invalid. *)
Definition set_WHEEL_RADIUS (r : R) (g : Globals) : Globals :=
  mkGlobals r (WHEEL_WIDTH g) (ROBOT_RADIUS g) (OMEGA g)
            (WHEEL_ANGLES g) (F_WHEEL_ANGLES g) (PLOT_BOTH g) (paused g).

Definition set_ROBOT_RADIUS (r : R) (g : Globals) : Globals :=
  mkGlobals (WHEEL_RADIUS g) (WHEEL_WIDTH g) r (OMEGA g)
            (WHEEL_ANGLES g) (F_WHEEL_ANGLES g) (PLOT_BOTH g) (paused g).

Definition set_WHEEL_ANGLES (angles : list R) (g : Globals) : Globals :=
  mkGlobals (WHEEL_RADIUS g) (WHEEL_WIDTH g) (ROBOT_RADIUS g) (OMEGA g)
            angles (F_WHEEL_ANGLES g) (PLOT_BOTH g) (paused g).

Definition negative_wheel_radius : Globals := set_WHEEL_RADIUS (-0.148) initial_globals.
Definition negative_platform_radius : Globals := set_ROBOT_RADIUS (-0.195) initial_globals.
Definition no_wheels : Globals := set_WHEEL_ANGLES [] initial_globals.

(** ** The wheel loop of [plot_robot] (lines 135 and 150-196)

    The geometry [plot_robot] computes for every wheel: the rectangle of the
    wheel, the arrow of its velocity and the position of its label.  The
    matplotlib artists are represented by the numbers they are created
    with. *)

(** [np.degrees]: radians to degrees. *)
Definition degrees (rad : R) : R := rad * 180 / PI.

(** [Rectangle((x, y), width, height, angle=a)]. *)
Record Rectangle : Type := mkRectangle {
  rectangle_x : R;
  rectangle_y : R;
  rectangle_width : R;
  rectangle_height : R;
  rectangle_angle : R
}.

(** [ax.arrow(x, y, dx, dy, ...)]. *)
Record Arrow : Type := mkArrow {
  arrow_x : R;
  arrow_y : R;
  arrow_dx : R;
  arrow_dy : R
}.

(** What one iteration of the loop adds to the axes: the wheel, the velocity
    arrow when there is one, and the label [str(i)] at [(x, y)]. *)
Record WheelArtists : Type := mkWheelArtists {
  wheel_patch : Rectangle;
  wheel_arrow : option Arrow;
  label_x : R;
  label_y : R;
  label_index : nat
}.

(** [wheel_velocities[i]]. *)
Definition getitem (wheel_velocities : list R) (i : nat) : result R :=
  match wheel_velocities !! i with
  | Some v => Ok v
  | None => Raise IndexError
  end.

(** Lines 167-193: the arrow of a wheel velocity, drawn only when the
    velocity is at least 0.1 in absolute value. *)
Definition velocity_arrow (g : Globals)
    (rotated_angle_rad buffer_x buffer_y velocity_magnitude : R) : option Arrow :=
  if Rle_dec 0.1 (Rabs velocity_magnitude) then
    let vm_x := buffer_x + (WHEEL_RADIUS g / 2) * cos (rotated_angle_rad + PI / 2) in
    let vm_y := buffer_y + (WHEEL_RADIUS g / 2) * sin (rotated_angle_rad + PI / 2) in
    let v_arrow_max := WHEEL_RADIUS g * 0.3 in
    let max_velocity := 6 in
    let vm_scaled := (Rabs velocity_magnitude / max_velocity) * v_arrow_max in
    let '(sv_x, sv_y) :=
      if Rlt_dec velocity_magnitude 0 then
        (vm_scaled * cos (rotated_angle_rad + PI / 2),
         vm_scaled * sin (rotated_angle_rad + PI / 2))
      else
        (- vm_scaled * cos (rotated_angle_rad + PI / 2),
         - vm_scaled * sin (rotated_angle_rad + PI / 2)) in
    Some (mkArrow vm_x vm_y sv_x sv_y)
  else None.

(** The body of the loop at lines 151-196. *)
Definition plot_wheel (g : Globals) (wheel_velocities : list R) (orientation_rad : R)
    (iw : nat * R) : result WheelArtists :=
  let '(i, w_angle_rad) := iw in
  let rotated_angle_rad := w_angle_rad + orientation_rad in
  let x := ROBOT_RADIUS g * cos rotated_angle_rad in
  let y := ROBOT_RADIUS g * sin rotated_angle_rad in
  let rect_x := x + ((WHEEL_WIDTH g / 2) * cos rotated_angle_rad)
                  - ((WHEEL_RADIUS g / 2) * cos (rotated_angle_rad + PI / 2)) in
  let rect_y := y + ((WHEEL_WIDTH g / 2) * sin rotated_angle_rad)
                  - ((WHEEL_RADIUS g / 2) * sin (rotated_angle_rad + PI / 2)) in
  let wheel := mkRectangle rect_x rect_y (WHEEL_RADIUS g) (WHEEL_WIDTH g)
                           (degrees (rotated_angle_rad + PI / 2)) in
  let buffer_x := x + ((WHEEL_WIDTH g / 2 + 0.01) * cos rotated_angle_rad)
                    - ((WHEEL_RADIUS g / 2 + 0.01) * cos (rotated_angle_rad + PI / 2)) in
  let buffer_y := y + ((WHEEL_WIDTH g / 2 + 0.01) * sin rotated_angle_rad)
                    - ((WHEEL_RADIUS g / 2 + 0.01) * sin (rotated_angle_rad + PI / 2)) in
  velocity_magnitude ← getitem wheel_velocities i;
  Ok (mkWheelArtists wheel
        (velocity_arrow g rotated_angle_rad buffer_x buffer_y velocity_magnitude)
        x y i).

(** A loop that collects one result per item; the first exception ends it. *)
Fixpoint collect {A B : Type} (body : A -> result B) (xs : list A) : result (list B) :=
  match xs with
  | [] => Ok []
  | x :: xs' => b ← body x; bs ← collect body xs'; Ok (b :: bs)
  end.

(** The wheels [plot_robot] draws, in the order of the mounting angles. *)
Definition plot_wheels (g : Globals) (wheel_velocities : list R) (orientation : R)
    (use_four_wheels : bool) : result (list WheelArtists) :=
  let orientation_rad := radians orientation in
  let wheel_angles := wheel_angles g use_four_wheels in
  collect (plot_wheel g wheel_velocities orientation_rad) (enumerate wheel_angles).

(** The centre of a rectangle patch: matplotlib turns the rectangle by
    [angle] degrees anti-clockwise about its anchor [(x, y)]. *)
Definition rectangle_centre (p : Rectangle) : R * R :=
  let a := radians (rectangle_angle p) in
  (rectangle_x p + rectangle_width p / 2 * cos a - rectangle_height p / 2 * sin a,
   rectangle_y p + rectangle_width p / 2 * sin a + rectangle_height p / 2 * cos a).

(** The sum of a list of numbers. *)
Definition total (xs : list R) : R := fold_right Rplus 0 xs.

(** The third prompt (line 44), asked with the module state [g]: the wheel
    set of the answer, or the exception of [input]. *)
Definition wheel_question (g : Globals) (stdin : list Line)
  : result (bool * Globals * list Line) :=
  match input stdin with
  | (Ok answer, stdin) => Ok (String.eqb (py_lower answer) "y", g, stdin)
  | (Raise e, _) => Raise e
  end.

(** The module state after the handler of [get_user_inputs]: [OMEGA] as it
    was, [PLOT_BOTH] reset. *)
Definition default_inputs (g : Globals) : Globals :=
  set_OMEGA (OMEGA g) (set_PLOT_BOTH false g).

(** An event that is a press of the space bar. *)
Definition space_bar : KeyEvent := mkKeyEvent (Some " "%string).

(** * Properties *)

Lemma bind_Ok {A B : Type} (f : A -> result B) (a : A) : (Ok a ≫= f) = f a.
Proof. reflexivity. Qed.

Lemma setitem_middle (pre post : ndarray) (row : list R) (k : nat) (v : R) :
  (k < length row)%nat ->
  setitem (pre ++ row :: post) (length pre) k v = Ok (pre ++ <[k := v]> row :: post).
Proof.
  intros Hk. unfold setitem.
  rewrite list_lookup_middle by reflexivity.
  destruct (decide (k < length row)%nat) as [_ | Hn]; [ | contradiction ].
  f_equal. replace (length pre) with (length pre + 0)%nat at 1 by lia.
  now rewrite insert_app_r.
Qed.

Lemma py_div_nonzero (a b : R) : b <> 0 -> py_div a b = Ok (a / b).
Proof. intros Hb. unfold py_div. destruct (Req_dec_T b 0); [ contradiction | reflexivity ]. Qed.

Lemma py_div_zero (a b : R) : b = 0 -> py_div a b = Raise ZeroDivisionError.
Proof. intros Hb. unfold py_div. destruct (Req_dec_T b 0); [ reflexivity | contradiction ]. Qed.

(** One iteration on a row that is still zero fills it in. *)
Lemma jacobian_loop_body_fill (g : Globals) (pre post : ndarray) (theta : R) :
  WHEEL_RADIUS g <> 0 ->
  jacobian_loop_body g (pre ++ replicate 3 0 :: post) (length pre, theta)
  = Ok (pre ++ spec_row g theta :: post).
Proof.
  intros Hr. unfold jacobian_loop_body.
  rewrite setitem_middle by (simpl; lia). rewrite bind_Ok.
  rewrite setitem_middle by (simpl; lia). rewrite bind_Ok.
  rewrite py_div_nonzero by assumption. rewrite bind_Ok.
  rewrite setitem_middle by (simpl; lia). reflexivity.
Qed.

(** With a zero wheel radius every iteration raises. *)
Lemma jacobian_loop_body_zero (g : Globals) (pre post : ndarray) (theta : R) :
  WHEEL_RADIUS g = 0 ->
  jacobian_loop_body g (pre ++ replicate 3 0 :: post) (length pre, theta)
  = Raise ZeroDivisionError.
Proof.
  intros Hr. unfold jacobian_loop_body.
  rewrite setitem_middle by (simpl; lia). rewrite bind_Ok.
  rewrite setitem_middle by (simpl; lia). rewrite bind_Ok.
  rewrite py_div_zero by assumption. reflexivity.
Qed.

(** The loop invariant: the rows before the current wheel are filled in, the
    others are still zero. *)
Lemma jacobian_loop_invariant (g : Globals) (angles : list R) :
  WHEEL_RADIUS g <> 0 ->
  forall pre : ndarray,
    for_each (jacobian_loop_body g) (enumerate_from (length pre) angles)
             (pre ++ replicate (length angles) (replicate 3 0))
    = Ok (pre ++ map (spec_row g) angles).
Proof.
  intros Hr. induction angles as [ | theta angles IH]; intros pre.
  - reflexivity.
  - cbn [enumerate_from for_each length replicate map].
    rewrite (jacobian_loop_body_fill g pre _ theta Hr). rewrite bind_Ok.
    specialize (IH (pre ++ [spec_row g theta])).
    rewrite length_app in IH. cbn [length] in IH.
    replace (length pre + 1)%nat with (S (length pre)) in IH by lia.
    rewrite <- !app_assoc in IH. exact IH.
Qed.

Lemma construct_jacobian_nonzero (g : Globals) (use_four_wheels : bool) :
  WHEEL_RADIUS g <> 0 ->
  construct_jacobian g use_four_wheels
  = Ok (map (spec_row g) (wheel_angles g use_four_wheels)).
Proof.
  intros Hr. unfold construct_jacobian, enumerate, np_zeros.
  exact (jacobian_loop_invariant g _ Hr []).
Qed.

Lemma construct_jacobian_zero (g : Globals) (use_four_wheels : bool) :
  WHEEL_RADIUS g = 0 ->
  wheel_angles g use_four_wheels <> [] ->
  construct_jacobian g use_four_wheels = Raise ZeroDivisionError.
Proof.
  intros Hr Hne. unfold construct_jacobian, enumerate, np_zeros.
  destruct (wheel_angles g use_four_wheels) as [ | theta angles]; [ contradiction | ].
  pose proof (jacobian_loop_body_zero g []
                (replicate (length angles) (replicate 3 0)) theta Hr) as Hbody.
  simpl in Hbody |- *. rewrite Hbody. reflexivity.
Qed.

Lemma construct_jacobian_empty (g : Globals) (use_four_wheels : bool) :
  wheel_angles g use_four_wheels = [] ->
  construct_jacobian g use_four_wheels = Ok [].
Proof.
  intros He. unfold construct_jacobian, enumerate. rewrite He. reflexivity.
Qed.

(** C1.  For every configuration of the module variables with a usable
    (nonzero, in particular positive) wheel radius [r], platform radius [R]
    and either angle list, [construct_jacobian] returns a matrix with one row
    per mounting angle, and row [i] is [cos theta_i / r; sin theta_i / r;
    R / r] for the [i]-th angle [theta_i] of the list: an N x 3 matrix with
    the rows in the order of the angles. *)
Theorem construct_jacobian_rows (g : Globals) (use_four_wheels : bool) :
  WHEEL_RADIUS g <> 0 ->
  exists j : ndarray,
    construct_jacobian g use_four_wheels = Ok j /\
    length j = length (wheel_angles g use_four_wheels) /\
    (forall row, In row j -> length row = 3%nat) /\
    forall (i : nat) (theta : R),
      wheel_angles g use_four_wheels !! i = Some theta ->
      j !! i = Some [cos theta / WHEEL_RADIUS g; sin theta / WHEEL_RADIUS g;
                     ROBOT_RADIUS g / WHEEL_RADIUS g].
Proof.
  intros Hr. exists (map (spec_row g) (wheel_angles g use_four_wheels)).
  split; [ now apply construct_jacobian_nonzero | ].
  split; [ now rewrite length_map | ].
  split.
  - intros row Hin. apply in_map_iff in Hin as (theta & <- & _). reflexivity.
  - intros i theta Hi. rewrite list_lookup_fmap. rewrite Hi. reflexivity.
Qed.

Lemma construct_jacobian_rows_witness :
  WHEEL_RADIUS initial_globals <> 0 /\
  exists j : ndarray,
    construct_jacobian initial_globals false = Ok j /\
    length j = length (wheel_angles initial_globals false) /\
    (forall row, In row j -> length row = 3%nat) /\
    forall (i : nat) (theta : R),
      wheel_angles initial_globals false !! i = Some theta ->
      j !! i = Some [cos theta / WHEEL_RADIUS initial_globals;
                     sin theta / WHEEL_RADIUS initial_globals;
                     ROBOT_RADIUS initial_globals / WHEEL_RADIUS initial_globals].
Proof.
  assert (Hr : WHEEL_RADIUS initial_globals <> 0) by (simpl; lra).
  split; [ exact Hr | exact (construct_jacobian_rows initial_globals false Hr) ].
Defined.

(** ** The frame transform *)

Lemma radians_minus (d o : R) : radians d - radians o = radians (d - o).
Proof. unfold radians. field. Qed.

(** C2.  For every speed [s] and all angles [d], [o] in degrees,
    [convert_to_body_frame s d o] is exactly [(- w, u)] where
    [u = s * cos Delta], [w = s * sin Delta] and [Delta = radians (d - o)]:
    the components relative to the orientation, turned by 90 degrees. *)
Theorem convert_to_body_frame_rotated (s d o : R) :
  let Delta := radians (d - o) in
  let u := s * cos Delta in
  let w := s * sin Delta in
  convert_to_body_frame s d o = (- w, u).
Proof.
  cbv zeta. unfold convert_to_body_frame. rewrite radians_minus. reflexivity.
Qed.

(** C9.  The body-frame velocity has the magnitude of the commanded speed:
    [v_bx ^ 2 + v_by ^ 2 = s ^ 2] for every speed and all angles. *)
Theorem convert_to_body_frame_preserves_speed (s d o : R) :
  let '(v_bx, v_by) := convert_to_body_frame s d o in
  v_bx ^ 2 + v_by ^ 2 = s ^ 2.
Proof.
  unfold convert_to_body_frame. cbv zeta.
  set (x := radians d - radians o).
  pose proof (sin2_cos2 x) as H. unfold Rsqr in H.
  replace ((- (s * sin x)) ^ 2 + (s * cos x) ^ 2)
    with (s ^ 2 * (sin x * sin x + cos x * cos x)) by ring.
  rewrite H. ring.
Qed.

(** ** The pause flag *)

(** C10.  [toggle_pause] negates [paused] exactly when the key of the event
    is the space character; for every other event (another key, or no key)
    the module state is unchanged; no other variable is ever touched. *)
Theorem toggle_pause_space_only (g : Globals) (event : KeyEvent) :
  let g' := toggle_pause g event in
  (WHEEL_RADIUS g' = WHEEL_RADIUS g /\ WHEEL_WIDTH g' = WHEEL_WIDTH g /\
   ROBOT_RADIUS g' = ROBOT_RADIUS g /\ OMEGA g' = OMEGA g /\
   WHEEL_ANGLES g' = WHEEL_ANGLES g /\ F_WHEEL_ANGLES g' = F_WHEEL_ANGLES g /\
   PLOT_BOTH g' = PLOT_BOTH g) /\
  (key event = Some " "%string -> paused g' = negb (paused g)) /\
  (key event <> Some " "%string -> g' = g).
Proof.
  cbv zeta. unfold toggle_pause.
  destruct (key event) as [k | ].
  - destruct (String.eqb_spec k " ") as [-> | Hk].
    + repeat split; try reflexivity. intros H. now elim H.
    + repeat split; try reflexivity. intros [= H]. contradiction.
  - repeat split; try reflexivity. intros H. discriminate H.
Qed.

(** ** Ticks while paused *)

(** C5.  While [paused] is set, a call of [update] returns without doing
    anything, whatever the frame, omega and wheel set: the axes are the very
    same afterwards, so nothing is cleared, no wheel velocities are computed
    (not even the division that fails for a zero wheel radius is attempted)
    and no picture is drawn; the same holds for any number of consecutive
    calls, and the picture shown before stays the one shown. *)
Theorem update_paused_is_noop (g : Globals) (ax : Axes) :
  paused g = true ->
  (forall (frame : Z) (omega : R) (use_four_wheels : bool),
      update g ax frame omega use_four_wheels = Ok ax) /\
  (forall calls : list (Z * R * bool),
      exists ax' : Axes,
        for_each (update_call g) calls ax = Ok ax' /\
        ax' = ax /\ drawn ax' = drawn ax /\ shown ax' = shown ax).
Proof.
  intros Hp.
  assert (H1 : forall frame omega four, update g ax frame omega four = Ok ax).
  { intros. unfold update. rewrite Hp. reflexivity. }
  split; [ exact H1 | ].
  intros calls. exists ax.
  split; [ | repeat split ].
  induction calls as [ | [[frame omega] four] calls IH].
  - reflexivity.
  - cbn [for_each update_call]. rewrite H1. exact IH.
Qed.

Lemma update_paused_is_noop_witness :
  paused (set_paused true initial_globals) = true /\
  update (set_paused true initial_globals) [] 90 0 false = Ok [].
Proof.
  split; [ reflexivity | ].
  exact (proj1 (update_paused_is_noop (set_paused true initial_globals) []
                  eq_refl) 90%Z 0 false).
Defined.

(** ** Running ticks *)

Lemma np_dot_spec_rows (g : Globals) (angles : list R) (v : list R) :
  length v = 3%nat ->
  np_dot (map (spec_row g) angles) v
  = Ok (map (fun theta => inner (spec_row g theta) v) angles).
Proof.
  intros Hv. unfold np_dot.
  replace (forallb _ (map (spec_row g) angles)) with true.
  - now rewrite map_map.
  - symmetry. apply forallb_forall. intros row Hin.
    apply in_map_iff in Hin as (theta & <- & _). rewrite Hv. reflexivity.
Qed.

Lemma compute_wheel_velocities_jacobian_nonzero
    (g : Globals) (speed angle orientation omega : R) (use_four_wheels : bool) :
  WHEEL_RADIUS g <> 0 ->
  compute_wheel_velocities_jacobian g speed angle orientation omega use_four_wheels
  = Ok (map (fun theta =>
               inner (spec_row g theta)
                     [fst (convert_to_body_frame speed angle orientation);
                      snd (convert_to_body_frame speed angle orientation);
                      omega])
            (wheel_angles g use_four_wheels)).
Proof.
  intros Hr. unfold compute_wheel_velocities_jacobian.
  destruct (convert_to_body_frame speed angle orientation) as [v_bx v_by].
  rewrite construct_jacobian_nonzero by assumption. rewrite bind_Ok.
  now rewrite np_dot_spec_rows.
Qed.

(** The float remainder lies in [[0, m)] and differs from its argument by a
    multiple of [m]. *)
Lemma py_fmod_range (x m : R) :
  0 < m ->
  0 <= py_fmod x m < m /\ exists k : Z, x = py_fmod x m + m * IZR k.
Proof.
  intros Hm. unfold py_fmod.
  destruct (base_Int_part (x / m)) as [Hlo Hhi].
  set (q := IZR (Int_part (x / m))) in *.
  assert (Hx : x = m * (x / m)) by (field; lra).
  split.
  - split.
    + assert (m * q <= m * (x / m)) by (apply Rmult_le_compat_l; lra). lra.
    + assert (m * (x / m) < m * (q + 1)) by (apply Rmult_lt_compat_l; lra). lra.
  - exists (Int_part (x / m)). fold q. lra.
Qed.

Lemma speed_range (x : R) : 0 <= 0.5 * (1 + sin x) <= 1.
Proof. pose proof (SIN_bound x). lra. Qed.

(** C3.  A tick that is not paused (with a wheel radius the Jacobian can be
    built for) draws exactly one picture, with
    [speed = 0.5 * (1 + sin (radians n))], [direction = n mod 360] and
    [orientation = (omega * n) mod 360], the float remainder, which lies in
    [[0, 360)] and differs from [omega * n] by a multiple of 360; the wheel
    velocities are those of this speed, direction and orientation; and the
    speed lies in [[0, 1]]. *)
Theorem update_running_derives
    (g : Globals) (ax : Axes) (n : Z) (omega : R) (use_four_wheels : bool) :
  paused g = false ->
  WHEEL_RADIUS g <> 0 ->
  exists scene : Scene,
    update g ax n omega use_four_wheels
      = Ok (ax ++ [ax_clear; ax_clear; ax_draw scene]) /\
    scene_speed scene = 0.5 * (1 + sin (radians (IZR n))) /\
    scene_angle scene = (n mod 360)%Z /\
    scene_orientation scene = py_fmod (omega * IZR n) 360 /\
    (0 <= scene_orientation scene < 360 /\
     exists k : Z, omega * IZR n = scene_orientation scene + 360 * IZR k) /\
    compute_wheel_velocities_jacobian g (scene_speed scene)
        (IZR (scene_angle scene)) (scene_orientation scene) omega use_four_wheels
      = Ok (scene_wheel_velocities scene) /\
    scene_use_four_wheels scene = use_four_wheels /\
    0 <= scene_speed scene <= 1.
Proof.
  intros Hp Hr.
  set (speed := 0.5 * (1 + sin (radians (IZR n)))).
  set (orientation := py_fmod (omega * IZR n) 360).
  destruct (compute_wheel_velocities_jacobian g speed (IZR (n mod 360)) orientation
              omega use_four_wheels) as [wv | e] eqn:Hwv.
  2: { rewrite compute_wheel_velocities_jacobian_nonzero in Hwv by assumption.
       discriminate Hwv. }
  exists (mkScene wv orientation speed (n mod 360)%Z use_four_wheels).
  split.
  { unfold update. rewrite Hp. cbn [negb]. cbv zeta.
    fold speed. fold orientation. rewrite Hwv. rewrite bind_Ok.
    unfold plot_robot. now rewrite <- app_assoc. }
  cbn [scene_speed scene_angle scene_orientation scene_wheel_velocities
       scene_use_four_wheels].
  repeat split; try reflexivity; try exact Hwv.
  - apply (py_fmod_range (omega * IZR n) 360). lra.
  - apply (py_fmod_range (omega * IZR n) 360). lra.
  - destruct (proj2 (py_fmod_range (omega * IZR n) 360 ltac:(lra))) as [k Hk].
    now exists k.
  - apply speed_range.
  - apply speed_range.
Qed.

Lemma update_running_derives_witness :
  paused initial_globals = false /\
  WHEEL_RADIUS initial_globals <> 0 /\
  exists scene : Scene,
    update initial_globals [] 90 0 false
      = Ok ([] ++ [ax_clear; ax_clear; ax_draw scene]) /\
    scene_speed scene = 0.5 * (1 + sin (radians (IZR 90))) /\
    scene_angle scene = (90 mod 360)%Z /\
    scene_orientation scene = py_fmod (0 * IZR 90) 360 /\
    (0 <= scene_orientation scene < 360 /\
     exists k : Z, 0 * IZR 90 = scene_orientation scene + 360 * IZR k) /\
    compute_wheel_velocities_jacobian initial_globals (scene_speed scene)
        (IZR (scene_angle scene)) (scene_orientation scene) 0 false
      = Ok (scene_wheel_velocities scene) /\
    scene_use_four_wheels scene = false /\
    0 <= scene_speed scene <= 1.
Proof.
  assert (Hr : WHEEL_RADIUS initial_globals <> 0) by (simpl; lra).
  split; [ reflexivity | ].
  split; [ exact Hr | ].
  exact (update_running_derives initial_globals [] 90 0 false eq_refl Hr).
Defined.

(** ** The documented scenario: three wheels, frame 90, omega 0 *)

Lemma radians_90 : radians 90 = PI / 2.
Proof. unfold radians. field. Qed.

Lemma cos_radians_60 : cos (radians 60) = 1 / 2.
Proof.
  replace (radians 60) with (PI / 3) by (unfold radians; field). exact cos_PI3.
Qed.

Lemma cos_radians_180 : cos (radians 180) = -1.
Proof.
  replace (radians 180) with PI by (unfold radians; field). exact cos_PI.
Qed.

Lemma cos_radians_300 : cos (radians 300) = 1 / 2.
Proof.
  replace (radians 300) with (2 * PI - PI / 3) by (unfold radians; field).
  rewrite cos_minus, cos_2PI, sin_2PI, cos_PI3. lra.
Qed.

Lemma Int_part_0 : Int_part 0 = 0%Z.
Proof.
  destruct (base_Int_part 0) as [Hlo Hhi].
  assert (H1 : (Int_part 0 <= 0)%Z) by (apply le_IZR; lra).
  assert (H2 : (-1 < Int_part 0)%Z) by (apply lt_IZR; lra).
  lia.
Qed.

Lemma py_fmod_0 (m : R) : py_fmod 0 m = 0.
Proof.
  unfold py_fmod. replace (0 / m) with 0 by (unfold Rdiv; ring).
  rewrite Int_part_0. ring.
Qed.

(** C6.  With the module's own constants (wheel radius 0.148, platform radius
    0.195, wheels at 60, 180 and 300 degrees), the tick of frame 90 with
    omega 0 draws speed 1, direction 90 and orientation 0; the body-frame
    velocity of that command is [(-1, 0)]; and the wheel velocities are
    [cos 60 / 0.148 * -1], [cos 180 / 0.148 * -1], [cos 300 / 0.148 * -1],
    which are -3.378, 6.757 and -3.378 to three decimals. *)
Theorem scenario_frame_90 :
  exists w0 w1 w2 : R,
    update initial_globals [] 90 0 false
      = Ok [ax_clear; ax_clear; ax_draw (mkScene [w0; w1; w2] 0 1 90 false)] /\
    convert_to_body_frame 1 90 0 = (-1, 0) /\
    compute_wheel_velocities_jacobian initial_globals 1 90 0 0 false
      = Ok [w0; w1; w2] /\
    (w0 = cos (radians 60) / 0.148 * (-1) /\
     w1 = cos (radians 180) / 0.148 * (-1) /\
     w2 = cos (radians 300) / 0.148 * (-1)) /\
    (Rabs (w0 - (-3.378)) < 0.0005 /\
     Rabs (w1 - 6.757) < 0.0005 /\
     Rabs (w2 - (-3.378)) < 0.0005).
Proof.
  assert (Hr : WHEEL_RADIUS initial_globals <> 0) by (simpl; lra).
  assert (Hbody : convert_to_body_frame 1 90 0 = (-1, 0)).
  { unfold convert_to_body_frame. cbv zeta.
    replace (radians 90 - radians 0) with (PI / 2) by (unfold radians; field).
    rewrite sin_PI2, cos_PI2. f_equal; ring. }
  assert (Hspeed : 0.5 * (1 + sin (radians (IZR 90))) = 1).
  { rewrite radians_90, sin_PI2. lra. }
  assert (Horient : py_fmod (0 * IZR 90) 360 = 0).
  { replace (0 * IZR 90) with 0 by ring. apply py_fmod_0. }
  exists (cos (radians 60) / 0.148 * (-1)),
         (cos (radians 180) / 0.148 * (-1)),
         (cos (radians 300) / 0.148 * (-1)).
  assert (Hwv : compute_wheel_velocities_jacobian initial_globals 1 90 0 0 false
                = Ok [cos (radians 60) / 0.148 * (-1);
                      cos (radians 180) / 0.148 * (-1);
                      cos (radians 300) / 0.148 * (-1)]).
  { rewrite compute_wheel_velocities_jacobian_nonzero by exact Hr.
    rewrite Hbody. cbn [wheel_angles initial_globals WHEEL_ANGLES map spec_row
                        inner fst snd WHEEL_RADIUS ROBOT_RADIUS].
    f_equal. repeat (apply f_equal2; [ lra | ]). reflexivity. }
  split.
  { unfold update. cbn [paused initial_globals negb]. cbv zeta.
    change (90 mod 360)%Z with 90%Z.
    rewrite Hspeed, Horient, Hwv. reflexivity. }
  split; [ exact Hbody | ].
  split; [ exact Hwv | ].
  split; [ repeat split | ].
  rewrite cos_radians_60, cos_radians_180, cos_radians_300.
  repeat split; apply Rabs_def1; lra.
Qed.

(** ** Invalid configurations *)

(** C4 (as stated, refuted).  Configurations the specification calls invalid
    are built all the same: a negative wheel radius, a negative platform
    radius and an empty angle list each yield a matrix. *)
Lemma invalid_configurations_build :
  (WHEEL_RADIUS negative_wheel_radius <= 0 /\
   exists j, construct_jacobian negative_wheel_radius false = Ok j /\
             length j = 3%nat) /\
  (ROBOT_RADIUS negative_platform_radius < 0 /\
   exists j, construct_jacobian negative_platform_radius false = Ok j /\
             length j = 3%nat) /\
  (WHEEL_ANGLES no_wheels = [] /\
   construct_jacobian no_wheels false = Ok []).
Proof.
  split; [ | split ].
  - split; [ simpl; lra | ].
    eexists. split.
    + apply construct_jacobian_nonzero. simpl. lra.
    + reflexivity.
  - split; [ simpl; lra | ].
    eexists. split.
    + apply construct_jacobian_nonzero. simpl. lra.
    + reflexivity.
  - split; [ reflexivity | ]. now apply construct_jacobian_empty.
Qed.

(** C4 (amended).  [construct_jacobian] validates nothing.  It fails in one
    case only, a wheel radius that is exactly zero together with a non-empty
    angle list, and then with the [ZeroDivisionError] of the division
    [ROBOT_RADIUS / WHEEL_RADIUS]; in every other case, negative radii and the
    empty angle list included, it returns the matrix with one row
    [cos theta / r; sin theta / r; R / r] per angle. *)
Theorem construct_jacobian_total_but_zero_radius (g : Globals) (use_four_wheels : bool) :
  (WHEEL_RADIUS g = 0 /\ wheel_angles g use_four_wheels <> [] /\
   construct_jacobian g use_four_wheels = Raise ZeroDivisionError)
  \/
  ((WHEEL_RADIUS g <> 0 \/ wheel_angles g use_four_wheels = []) /\
   construct_jacobian g use_four_wheels
   = Ok (map (spec_row g) (wheel_angles g use_four_wheels))).
Proof.
  destruct (Req_dec_T (WHEEL_RADIUS g) 0) as [Hz | Hnz].
  - destruct (wheel_angles g use_four_wheels) as [ | theta angles] eqn:Ha.
    + right. split; [ now right | ].
      rewrite construct_jacobian_empty by assumption. reflexivity.
    + left. split; [ assumption | ]. split; [ discriminate | ].
      apply construct_jacobian_zero; [ assumption | ]. rewrite Ha. discriminate.
  - right. split; [ now left | ]. now apply construct_jacobian_nonzero.
Qed.

(** ** The frame counter *)

Lemma np_arange_length (start stop : Z) :
  length (np_arange start stop) = Z.to_nat (stop - start).
Proof. unfold np_arange. now rewrite length_map, length_seq. Qed.

Lemma np_arange_lookup (start stop : Z) (i : nat) :
  (i < Z.to_nat (stop - start))%nat ->
  np_arange start stop !! i = Some (start + Z.of_nat i)%Z.
Proof.
  intros Hi. unfold np_arange.
  change (map ?f ?l) with (f <$> l).
  rewrite list_lookup_fmap. rewrite lookup_seq_lt by assumption. reflexivity.
Qed.

(** The position of a tick in a repeating cycle of [n] frames: a cycle has
    [n + 1] ticks, the last of which redraws the first frame. *)
Lemma frame_at_cycle (fs : list Z) :
  fs <> [] ->
  forall (k p : nat),
    (p <= length fs)%nat ->
    frame_at fs true (drop p fs) k
    = fs !! (if ((p + k) mod S (length fs) =? length fs)%nat
             then 0%nat else ((p + k) mod S (length fs))%nat).
Proof.
  intros Hne. induction k as [ | k IH]; intros p Hp.
  - rewrite Nat.add_0_r, Nat.mod_small by lia.
    destruct (Nat.eqb_spec p (length fs)) as [-> | Hlt].
    + rewrite drop_all.
      destruct fs as [ | f rest]; [ contradiction | reflexivity ].
    + assert (Hp' : (p < length fs)%nat) by lia.
      destruct (lookup_lt_is_Some_2 fs p Hp') as [f Hf].
      rewrite (drop_S fs f p Hf). cbn [frame_at next_frame]. now rewrite Hf.
  - destruct (decide (p = length fs)) as [-> | Hlt].
    + rewrite drop_all.
      destruct fs as [ | f rest] eqn:Hfs; [ contradiction | ].
      cbn [frame_at next_frame]. rewrite <- Hfs in *.
      specialize (IH 0%nat ltac:(lia)). rewrite drop_0 in IH. rewrite IH.
      replace (length fs + S k)%nat with (0 + k + 1 * S (length fs))%nat by lia.
      now rewrite Nat.Div0.mod_add.
    + assert (Hp' : (p < length fs)%nat) by lia.
      destruct (lookup_lt_is_Some_2 fs p Hp') as [f Hf].
      rewrite (drop_S fs f p Hf). cbn [frame_at next_frame].
      rewrite IH by lia.
      now replace (S p + k)%nat with (p + S k)%nat by lia.
Qed.

Lemma frame_of_tick_mod (k : nat) :
  frame_of_tick k
  = Some (if (Z.of_nat k mod 721 =? 720)%Z then 0%Z else (Z.of_nat k mod 721)%Z).
Proof.
  unfold frame_of_tick, new_animation. cbn [frames repeat frame_seq].
  pose proof (frame_at_cycle (np_arange 0 720)) as H.
  specialize (H ltac:(discriminate) k 0%nat ltac:(lia)).
  rewrite drop_0 in H. rewrite H.
  rewrite np_arange_length. change (Z.to_nat (720 - 0)) with 720%nat.
  rewrite Nat.add_0_l.
  assert (Hq : Z.of_nat (k mod 721) = (Z.of_nat k mod 721)%Z)
    by (now rewrite Nat2Z.inj_mod).
  pose proof (Nat.mod_upper_bound k 721 ltac:(lia)) as Hb.
  destruct (Nat.eqb_spec (k mod 721) 720%nat) as [He | Hn].
  - rewrite <- Hq, He. reflexivity.
  - rewrite np_arange_lookup by (change (Z.to_nat (720 - 0)) with 720%nat; lia).
    rewrite Z.add_0_l, Hq.
    destruct (Z.eqb_spec (Z.of_nat k mod 721)%Z 720%Z) as [He | _];
      [ lia | reflexivity ].
Qed.

(** C7 (as stated, refuted).  The frame index is not strictly increasing:
    tick 719 has frame 719 and the next tick has frame 0 again. *)
Lemma frame_index_resets :
  frame_of_tick 719 = Some 719%Z /\ frame_of_tick 720 = Some 0%Z.
Proof. split; vm_compute; reflexivity. Qed.

(** C7 (amended).  The frame index starts at 0 and grows by one per tick up
    to 719.  The tick after that finds the sequence exhausted and redraws
    frame 0, and the tick after that one passes frame 0 once more; then the
    count resumes.  So the index of tick [k] is [r = k mod 721], except that
    it is 0 for [r = 720]; it stays within 0..719; and the next tick has the
    index plus one exactly while [r < 719], and index 0 otherwise. *)
Theorem frame_index_cycles :
  frame_of_tick 0 = Some 0%Z /\
  forall k : nat,
    exists f : Z,
      frame_of_tick k = Some f /\
      f = (if (Z.of_nat k mod 721 =? 720)%Z then 0 else Z.of_nat k mod 721)%Z /\
      (0 <= f < 720)%Z /\
      frame_of_tick (S k)
      = Some (if (Z.of_nat k mod 721 <? 719)%Z then (f + 1)%Z else 0%Z).
Proof.
  split; [ apply frame_of_tick_mod | ].
  intros k. eexists. split; [ apply frame_of_tick_mod | ].
  split; [ reflexivity | ].
  pose proof (Z.mod_pos_bound (Z.of_nat k) 721 ltac:(lia)) as Hb.
  pose proof (Z.div_mod (Z.of_nat k) 721 ltac:(lia)) as Hdm.
  set (r := (Z.of_nat k mod 721)%Z) in *.
  split.
  - destruct (Z.eqb_spec r 720%Z); lia.
  - rewrite frame_of_tick_mod. f_equal.
    rewrite Nat2Z.inj_succ. unfold Z.succ.
    destruct (Z.eq_dec r 720%Z) as [He | Hn].
    + assert (Hs : ((Z.of_nat k + 1) mod 721 = 0)%Z).
      { symmetry. apply (Z.mod_unique_pos _ _ (Z.of_nat k / 721 + 1)); lia. }
      rewrite Hs.
      destruct (Z.ltb_spec r 719%Z); [ lia | ]. reflexivity.
    + assert (Hs : ((Z.of_nat k + 1) mod 721 = r + 1)%Z).
      { symmetry. apply (Z.mod_unique_pos _ _ (Z.of_nat k / 721)); lia. }
      rewrite Hs.
      destruct (Z.eqb_spec r 720%Z) as [ | _]; [ contradiction | ].
      destruct (Z.ltb_spec r 719%Z); destruct (Z.eqb_spec (r + 1)%Z 720%Z);
        lia || reflexivity.
Qed.

(** ** Invalid user input *)

Lemma float_or_invalid (py_float : string -> option R) (answer : string) (default : R) :
  answer <> ""%string ->
  py_float answer = None ->
  float_or py_float answer default = None.
Proof.
  intros Hne Hp. unfold float_or.
  destruct (String.eqb_spec answer "") as [He | _]; [ contradiction | exact Hp ].
Qed.


(** The function by cases on two answers that are lines of text. *)
Lemma get_user_inputs_cases
    (py_float : string -> option R) (g : Globals) (a1 a2 : string)
    (rest : list Line) :
  get_user_inputs py_float g (line a1 :: line a2 :: rest)
  = match float_or py_float a2 (OMEGA g) with
    | Some w =>
        if String.eqb (py_lower a1) "y"
        then Ok (false, set_OMEGA w (set_PLOT_BOTH true g), rest)
        else wheel_question (set_OMEGA w (set_PLOT_BOTH false g)) rest
    | None => wheel_question (default_inputs g) rest
    end.
Proof.
  unfold get_user_inputs, try_block. cbn [input OMEGA set_PLOT_BOTH].
  destruct (float_or py_float a2 (OMEGA g)) as [w | ].
  - rewrite bind_Ok.
    destruct (String.eqb (py_lower a1) "y"); reflexivity.
  - cbn [is_ValueError]. rewrite bind_Ok. reflexivity.
Qed.

(** The function on an input that ends or fails to decode within the
    [try]: the end of the input propagates, the decode error is handled. *)
Lemma get_user_inputs_short_or_undecodable
    (py_float : string -> option R) (g : Globals) (a1 : string) (rest : list Line) :
  get_user_inputs py_float g [] = Raise EOFError /\
  get_user_inputs py_float g [line a1] = Raise EOFError /\
  get_user_inputs py_float g (undecodable :: rest)
  = wheel_question (default_inputs g) rest /\
  get_user_inputs py_float g (line a1 :: undecodable :: rest)
  = wheel_question (default_inputs g) rest.
Proof. repeat split. Qed.

(** X26.  After an omega entry that does not parse, the wheel question is
    still asked and its answer is honoured: omega and the plot-both flag fall
    back to their defaults, the wheel set is the one of the third answer,
    four wheels exactly when it lower-cases to [y]. *)
Theorem invalid_omega_asks_wheel_question
    (py_float : string -> option R) (g : Globals)
    (answer1 answer2 answer3 : string) (rest : list Line) :
  answer2 <> ""%string ->
  py_float answer2 = None ->
  get_user_inputs py_float g (line answer1 :: line answer2 :: line answer3 :: rest)
  = Ok (String.eqb (py_lower answer3) "y", default_inputs g, rest).
Proof.
  intros Hne Hp. rewrite get_user_inputs_cases.
  now rewrite (float_or_invalid py_float answer2 (OMEGA g) Hne Hp).
Qed.

Lemma invalid_omega_asks_wheel_question_witness :
  let py_float := fun _ : string => @None R in
  py_float "abc"%string = None /\
  get_user_inputs py_float initial_globals [line "y"; line "abc"; line "y"]
  = Ok (true, default_inputs initial_globals, []) /\
  PLOT_BOTH (default_inputs initial_globals) = false /\
  OMEGA (default_inputs initial_globals) = 0.
Proof.
  cbv zeta. split; [ reflexivity | ].
  assert (Hne : "abc"%string <> ""%string) by discriminate.
  split; [ | split; reflexivity ].
  exact (invalid_omega_asks_wheel_question (fun _ => None) initial_globals
           "y" "abc" "y" [] Hne eq_refl).
Defined.



(** ** The host while paused *)

(** A timer tick of a paused session only moves the frame source on. *)
Lemma animation_step_paused (g : Globals) (a : FuncAnimation) :
  paused g = true ->
  exists a' : FuncAnimation,
    animation_step g a = Ok a' /\ fargs_ax a' = fargs_ax a.
Proof.
  intros Hp. unfold animation_step.
  destruct (next_frame (frames a) (repeat a) (frame_seq a)) as [[frame rest] | ].
  - unfold update. rewrite Hp. cbn [negb]. rewrite bind_Ok.
    eexists. split; reflexivity.
  - exists a. split; reflexivity.
Qed.

(** Any number of timer ticks, of any of the animations, leaves the module
    state and every picture of a paused session as they are. *)
Lemma plt_show_paused (ticks : list nat) :
  forall fig : Figure,
    paused (fig_globals fig) = true ->
    exists fig' : Figure,
      plt_show fig (map timer_event ticks) = Ok fig' /\
      fig_globals fig' = fig_globals fig /\
      map fargs_ax (fig_animations fig') = map fargs_ax (fig_animations fig).
Proof.
  unfold plt_show. induction ticks as [ | i ticks IH]; intros fig Hp.
  - exists fig. repeat split.
  - cbn [map for_each dispatch].
    destruct (fig_animations fig !! i) as [a | ] eqn:Hi.
    + destruct (animation_step_paused (fig_globals fig) a Hp) as (a' & Hstep & Hax).
      rewrite Hstep. rewrite !bind_Ok.
      destruct (IH (mkFigure (fig_globals fig) (<[i := a']> (fig_animations fig))) Hp)
        as (fig' & Hrun & Hg & Haxs).
      exists fig'. split; [ exact Hrun | ]. split; [ exact Hg | ].
      rewrite Haxs. cbn [fig_animations].
      change (map fargs_ax ?l) with (fargs_ax <$> l).
      rewrite list_fmap_insert. rewrite Hax.
      apply list_insert_id. rewrite list_lookup_fmap, Hi. reflexivity.
    + rewrite bind_Ok. exact (IH fig Hp).
Qed.

(** * Further properties of the kinematics *)

Lemma convert_to_body_frame_components (s d o : R) :
  convert_to_body_frame s d o
  = (- (s * sin (radians (d - o))), s * cos (radians (d - o))).
Proof. unfold convert_to_body_frame. now rewrite radians_minus. Qed.

(** X1.  In every matrix [construct_jacobian] returns, each row [a; b; c]
    satisfies [a ^ 2 + b ^ 2 = 1 / r ^ 2] and [c = R / r]: the translational
    part of every row has the same length and the rotational entry is the
    same for all wheels. *)
Theorem jacobian_rows_normalised (g : Globals) (use_four_wheels : bool) :
  WHEEL_RADIUS g <> 0 ->
  exists j : ndarray,
    construct_jacobian g use_four_wheels = Ok j /\
    Forall (fun row =>
              exists a b c : R,
                row = [a; b; c] /\
                a ^ 2 + b ^ 2 = 1 / WHEEL_RADIUS g ^ 2 /\
                c = ROBOT_RADIUS g / WHEEL_RADIUS g) j.
Proof.
  intros Hr. eexists. split; [ now apply construct_jacobian_nonzero | ].
  apply List.Forall_forall. intros row Hin.
  apply in_map_iff in Hin as (theta & <- & _).
  exists (cos theta / WHEEL_RADIUS g), (sin theta / WHEEL_RADIUS g),
         (ROBOT_RADIUS g / WHEEL_RADIUS g).
  split; [ reflexivity | ]. split; [ | reflexivity ].
  pose proof (sin2_cos2 theta) as H. unfold Rsqr in H.
  replace ((cos theta / WHEEL_RADIUS g) ^ 2 + (sin theta / WHEEL_RADIUS g) ^ 2)
    with ((sin theta * sin theta + cos theta * cos theta) / WHEEL_RADIUS g ^ 2)
    by (field; assumption).
  now rewrite H.
Qed.

Lemma jacobian_rows_normalised_witness :
  WHEEL_RADIUS initial_globals <> 0 /\
  exists j : ndarray,
    construct_jacobian initial_globals true = Ok j /\
    Forall (fun row =>
              exists a b c : R,
                row = [a; b; c] /\
                a ^ 2 + b ^ 2 = 1 / WHEEL_RADIUS initial_globals ^ 2 /\
                c = ROBOT_RADIUS initial_globals / WHEEL_RADIUS initial_globals) j.
Proof.
  assert (Hr : WHEEL_RADIUS initial_globals <> 0) by (simpl; lra).
  split; [ exact Hr | exact (jacobian_rows_normalised initial_globals true Hr) ].
Defined.

(** X2.  A zero speed gives a zero body-frame velocity, whatever the
    direction and the orientation. *)
Theorem convert_to_body_frame_zero_speed (d o : R) :
  convert_to_body_frame 0 d o = (0, 0).
Proof. unfold convert_to_body_frame. cbv zeta. f_equal; ring. Qed.

(** X3.  The body-frame velocity depends on the direction and the
    orientation only through their difference: turning both by the same
    angle [c] (any real number of degrees) changes nothing. *)
Theorem convert_to_body_frame_relative (s d o c : R) :
  convert_to_body_frame s (d + c) (o + c) = convert_to_body_frame s d o.
Proof.
  rewrite !convert_to_body_frame_components.
  now replace (d + c - (o + c)) with (d - o) by ring.
Qed.

Lemma radians_add_turns (x : R) (k : Z) :
  radians (x + 360 * IZR k) = x * PI / 180 + 2 * IZR k * PI.
Proof. unfold radians. field. Qed.

Lemma cos_add_turns (x : R) (k : Z) : cos (x + 2 * IZR k * PI) = cos x.
Proof.
  destruct (Z.le_gt_cases 0 k) as [Hk | Hk].
  - rewrite <- (Z2Nat.id k Hk), <- INR_IZR_INZ. apply cos_period.
  - rewrite <- (cos_period (x + 2 * IZR k * PI) (Z.to_nat (- k))).
    rewrite INR_IZR_INZ, Z2Nat.id by lia. rewrite opp_IZR. f_equal. ring.
Qed.

Lemma sin_add_turns (x : R) (k : Z) : sin (x + 2 * IZR k * PI) = sin x.
Proof.
  destruct (Z.le_gt_cases 0 k) as [Hk | Hk].
  - rewrite <- (Z2Nat.id k Hk), <- INR_IZR_INZ. apply sin_period.
  - rewrite <- (sin_period (x + 2 * IZR k * PI) (Z.to_nat (- k))).
    rewrite INR_IZR_INZ, Z2Nat.id by lia. rewrite opp_IZR. f_equal. ring.
Qed.

(** X4.  The body-frame velocity is periodic in the direction and in the
    orientation separately: whole turns, [360 * k] and [360 * m] degrees for
    integers [k] and [m], added to either leave it unchanged. *)
Theorem convert_to_body_frame_periodic (s d o : R) (k m : Z) :
  convert_to_body_frame s (d + 360 * IZR k) (o + 360 * IZR m)
  = convert_to_body_frame s d o.
Proof.
  rewrite !convert_to_body_frame_components.
  replace (d + 360 * IZR k - (o + 360 * IZR m))
    with ((d - o) + 360 * IZR (k - m)) by (rewrite minus_IZR; ring).
  rewrite radians_add_turns. fold (radians (d - o)).
  now rewrite cos_add_turns, sin_add_turns.
Qed.

Lemma inner_spec_row (g : Globals) (theta x y z : R) :
  inner (spec_row g theta) [x; y; z]
  = cos theta / WHEEL_RADIUS g * x
    + (sin theta / WHEEL_RADIUS g * y + (ROBOT_RADIUS g / WHEEL_RADIUS g * z + 0)).
Proof. reflexivity. Qed.

Lemma wheel_velocities_formula
    (g : Globals) (s d o omega : R) (use_four_wheels : bool) :
  WHEEL_RADIUS g <> 0 ->
  compute_wheel_velocities_jacobian g s d o omega use_four_wheels
  = Ok (map (fun theta =>
               (s * sin (theta - radians (d - o)) + ROBOT_RADIUS g * omega)
               / WHEEL_RADIUS g)
            (wheel_angles g use_four_wheels)).
Proof.
  intros Hr. rewrite compute_wheel_velocities_jacobian_nonzero by assumption.
  f_equal. apply map_ext. intros theta.
  rewrite convert_to_body_frame_components. cbn [fst snd].
  rewrite inner_spec_row, sin_minus. field. assumption.
Qed.

(** X5.  Closed form of the wheel velocities: for a nonzero wheel radius [r],
    the wheel mounted at [theta] turns at
    [(s * sin (theta - Delta) + R * omega) / r] where
    [Delta = radians (d - o)]; there is one velocity per mounting angle, in
    the order of the angles. *)
Theorem wheel_velocities_closed_form
    (g : Globals) (s d o omega : R) (use_four_wheels : bool) :
  WHEEL_RADIUS g <> 0 ->
  compute_wheel_velocities_jacobian g s d o omega use_four_wheels
  = Ok (map (fun theta =>
               (s * sin (theta - radians (d - o)) + ROBOT_RADIUS g * omega)
               / WHEEL_RADIUS g)
            (wheel_angles g use_four_wheels)).
Proof.
  exact (wheel_velocities_formula g s d o omega use_four_wheels).
Qed.

Lemma wheel_velocities_closed_form_witness :
  WHEEL_RADIUS initial_globals <> 0 /\
  compute_wheel_velocities_jacobian initial_globals 1 90 0 0 false
  = Ok (map (fun theta =>
               (1 * sin (theta - radians (90 - 0)) + ROBOT_RADIUS initial_globals * 0)
               / WHEEL_RADIUS initial_globals)
            (wheel_angles initial_globals false)).
Proof.
  assert (Hr : WHEEL_RADIUS initial_globals <> 0) by (simpl; lra).
  split; [ exact Hr | exact (wheel_velocities_closed_form initial_globals 1 90 0 0 false Hr) ].
Defined.

(** X6.  Turning on the spot: with speed 0 every wheel turns at the same
    velocity [R * omega / r], whatever the direction, the orientation and the
    mounting angles; with [omega = 0] as well, all wheels stand still. *)
Theorem wheel_velocities_pure_rotation
    (g : Globals) (d o omega : R) (use_four_wheels : bool) :
  WHEEL_RADIUS g <> 0 ->
  compute_wheel_velocities_jacobian g 0 d o omega use_four_wheels
  = Ok (replicate (length (wheel_angles g use_four_wheels))
                  (ROBOT_RADIUS g * omega / WHEEL_RADIUS g)) /\
  compute_wheel_velocities_jacobian g 0 d o 0 use_four_wheels
  = Ok (replicate (length (wheel_angles g use_four_wheels)) 0).
Proof.
  intros Hr. rewrite !wheel_velocities_formula by assumption.
  split; f_equal.
  - induction (wheel_angles g use_four_wheels) as [ | theta angles IH];
      [ reflexivity | ].
    cbn [map length replicate]. rewrite IH. f_equal. field. assumption.
  - induction (wheel_angles g use_four_wheels) as [ | theta angles IH];
      [ reflexivity | ].
    cbn [map length replicate]. rewrite IH. f_equal. field. assumption.
Qed.

Lemma wheel_velocities_pure_rotation_witness :
  WHEEL_RADIUS initial_globals <> 0 /\
  compute_wheel_velocities_jacobian initial_globals 0 30 45 2 true
  = Ok (replicate (length (wheel_angles initial_globals true))
                  (ROBOT_RADIUS initial_globals * 2 / WHEEL_RADIUS initial_globals)).
Proof.
  assert (Hr : WHEEL_RADIUS initial_globals <> 0) by (simpl; lra).
  split; [ exact Hr | ].
  exact (proj1 (wheel_velocities_pure_rotation initial_globals 30 45 2 true Hr)).
Defined.

(** X7.  The wheel velocities are linear in the command: scaling the speed
    and omega by [k] scales every wheel velocity by [k]. *)
Theorem wheel_velocities_scale
    (g : Globals) (k s d o omega : R) (use_four_wheels : bool) :
  WHEEL_RADIUS g <> 0 ->
  exists wv : list R,
    compute_wheel_velocities_jacobian g s d o omega use_four_wheels = Ok wv /\
    compute_wheel_velocities_jacobian g (k * s) d o (k * omega) use_four_wheels
    = Ok (map (Rmult k) wv).
Proof.
  intros Hr. eexists. split; [ now apply wheel_velocities_formula | ].
  rewrite wheel_velocities_formula by assumption.
  f_equal. rewrite map_map. apply map_ext. intros theta. field. assumption.
Qed.

Lemma wheel_velocities_scale_witness :
  WHEEL_RADIUS initial_globals <> 0 /\
  exists wv : list R,
    compute_wheel_velocities_jacobian initial_globals 1 90 0 0 false = Ok wv /\
    compute_wheel_velocities_jacobian initial_globals (2 * 1) 90 0 (2 * 0) false
    = Ok (map (Rmult 2) wv).
Proof.
  assert (Hr : WHEEL_RADIUS initial_globals <> 0) by (simpl; lra).
  split; [ exact Hr | exact (wheel_velocities_scale initial_globals 2 1 90 0 0 false Hr) ].
Defined.

(** X8.  [compute_wheel_velocities_jacobian] has one failure only: with a
    wheel radius of exactly zero and at least one wheel it raises
    [ZeroDivisionError]; in every other case it returns one velocity per
    mounting angle, so the product [np.dot] never meets mismatched shapes. *)
Theorem wheel_velocities_total_but_zero_radius
    (g : Globals) (s d o omega : R) (use_four_wheels : bool) :
  (WHEEL_RADIUS g = 0 /\ wheel_angles g use_four_wheels <> [] /\
   compute_wheel_velocities_jacobian g s d o omega use_four_wheels
   = Raise ZeroDivisionError)
  \/
  ((WHEEL_RADIUS g <> 0 \/ wheel_angles g use_four_wheels = []) /\
   exists wv : list R,
     compute_wheel_velocities_jacobian g s d o omega use_four_wheels = Ok wv /\
     length wv = length (wheel_angles g use_four_wheels)).
Proof.
  destruct (Req_dec_T (WHEEL_RADIUS g) 0) as [Hz | Hnz].
  - destruct (wheel_angles g use_four_wheels) as [ | theta angles] eqn:Ha.
    + right. split; [ now right | ]. exists [].
      unfold compute_wheel_velocities_jacobian.
      destruct (convert_to_body_frame s d o) as [v_bx v_by].
      rewrite construct_jacobian_empty by assumption. split; reflexivity.
    + left. split; [ assumption | ]. split; [ discriminate | ].
      unfold compute_wheel_velocities_jacobian.
      destruct (convert_to_body_frame s d o) as [v_bx v_by].
      rewrite construct_jacobian_zero; [ reflexivity | assumption | ].
      rewrite Ha. discriminate.
  - right. split; [ now left | ]. eexists.
    split; [ now apply wheel_velocities_formula | ].
    now rewrite length_map.
Qed.

Lemma sin_cos_radians_300 :
  sin (radians 300) = - sin (radians 60) /\ cos (radians 300) = cos (radians 60).
Proof.
  replace (radians 300) with (2 * PI - radians 60) by (unfold radians; field).
  rewrite sin_minus, cos_minus, cos_2PI, sin_2PI. split; ring.
Qed.

Lemma sin_radians_180 : sin (radians 180) = 0.
Proof. replace (radians 180) with PI by (unfold radians; field). exact sin_PI. Qed.

Lemma sin_cos_radians_135 :
  sin (radians 135) = sin (radians 45) /\ cos (radians 135) = - cos (radians 45).
Proof.
  replace (radians 135) with (PI - radians 45) by (unfold radians; field).
  rewrite sin_minus, cos_minus, cos_PI, sin_PI. split; ring.
Qed.

Lemma sin_cos_radians_225 :
  sin (radians 225) = - sin (radians 45) /\ cos (radians 225) = - cos (radians 45).
Proof.
  replace (radians 225) with (PI + radians 45) by (unfold radians; field).
  rewrite sin_plus, cos_plus, cos_PI, sin_PI. split; ring.
Qed.

Lemma sin_cos_radians_315 :
  sin (radians 315) = - sin (radians 45) /\ cos (radians 315) = cos (radians 45).
Proof.
  replace (radians 315) with (2 * PI - radians 45) by (unfold radians; field).
  rewrite sin_minus, cos_minus, cos_2PI, sin_2PI. split; ring.
Qed.

(** X9.  With the wheel layouts of the script (60, 180, 300 degrees, and
    45, 135, 225, 315 degrees) the wheel velocities of any command add up to
    [N * R * omega / r], [N] the number of wheels: the translation cancels
    in the sum, which depends on omega alone. *)
Theorem shipped_layouts_sum (s d o omega : R) (use_four_wheels : bool) :
  exists wv : list R,
    compute_wheel_velocities_jacobian initial_globals s d o omega use_four_wheels
    = Ok wv /\
    total wv = (if use_four_wheels then 4 else 3) * (0.195 * omega / 0.148).
Proof.
  assert (Hr : WHEEL_RADIUS initial_globals <> 0) by (simpl; lra).
  eexists. split; [ now apply compute_wheel_velocities_jacobian_nonzero | ].
  rewrite convert_to_body_frame_components. cbn [fst snd].
  set (x := - (s * sin (radians (d - o)))). set (y := s * cos (radians (d - o))).
  destruct use_four_wheels;
    cbn [wheel_angles initial_globals WHEEL_ANGLES F_WHEEL_ANGLES map total
         fold_right];
    rewrite !inner_spec_row; cbn [WHEEL_RADIUS ROBOT_RADIUS initial_globals].
  - destruct sin_cos_radians_135 as [-> ->]. destruct sin_cos_radians_225 as [-> ->].
    destruct sin_cos_radians_315 as [-> ->]. lra.
  - destruct sin_cos_radians_300 as [-> ->]. rewrite cos_radians_60, cos_radians_180.
    rewrite sin_radians_180. lra.
Qed.

(** * Further properties of the clock *)

Lemma Int_part_add_IZR (y : R) (k : Z) : Int_part (y + IZR k) = (Int_part y + k)%Z.
Proof.
  destruct (base_Int_part (y + IZR k)) as [Ha1 Ha2].
  destruct (base_Int_part y) as [Hb1 Hb2].
  set (a := Int_part (y + IZR k)) in *. set (b := Int_part y) in *.
  assert (H1 : (a - k - b < 1)%Z).
  { apply lt_IZR. rewrite !minus_IZR. lra. }
  assert (H2 : (-1 < a - k - b)%Z).
  { apply lt_IZR. rewrite !minus_IZR. lra. }
  lia.
Qed.

Lemma py_fmod_add_turns (x : R) (k : Z) :
  py_fmod (x + 360 * IZR k) 360 = py_fmod x 360.
Proof.
  unfold py_fmod.
  replace ((x + 360 * IZR k) / 360) with (x / 360 + IZR k) by field.
  rewrite Int_part_add_IZR, plus_IZR. ring.
Qed.

(** X10.  The picture of a tick is periodic in the frame number: frames [n]
    and [n + 360 * j] give the same call of [update] whenever [omega * j] is
    an integer.  So every omega that is an integer has period 360, and every
    omega with [2 * omega] an integer passes the wrap from frame 719 to
    frame 0 without a jump. *)
Theorem update_periodic
    (g : Globals) (ax : Axes) (n j k : Z) (omega : R) (use_four_wheels : bool) :
  omega * IZR j = IZR k ->
  update g ax (n + 360 * j) omega use_four_wheels
  = update g ax n omega use_four_wheels.
Proof.
  intros Hk.
  assert (H1 : sin (radians (IZR (n + 360 * j))) = sin (radians (IZR n))).
  { rewrite plus_IZR, mult_IZR, radians_add_turns. apply sin_add_turns. }
  assert (H2 : ((n + 360 * j) mod 360 = n mod 360)%Z).
  { rewrite (Z.mul_comm 360 j). apply Z_mod_plus_full. }
  assert (H3 : py_fmod (omega * IZR (n + 360 * j)) 360 = py_fmod (omega * IZR n) 360).
  { rewrite plus_IZR, mult_IZR.
    replace (omega * (IZR n + 360 * IZR j)) with (omega * IZR n + 360 * IZR k)
      by (rewrite <- Hk; ring).
    apply py_fmod_add_turns. }
  unfold update. cbv zeta. now rewrite H1, H2, H3.
Qed.

Lemma update_periodic_witness :
  0.5 * IZR 2 = IZR 1 /\
  update initial_globals [] (719 + 360 * 2) 0.5 false
  = update initial_globals [] 719 0.5 false.
Proof.
  assert (H : 0.5 * IZR 2 = IZR 1) by lra.
  split; [ exact H | exact (update_periodic initial_globals [] 719 2 1 0.5 false H) ].
Defined.

(** X11.  A tick of a session that is not paused fails with
    [ZeroDivisionError] when the wheel radius is zero and there is at least
    one wheel: the error of [construct_jacobian] is not caught on the way. *)
Theorem update_zero_radius_raises
    (g : Globals) (ax : Axes) (n : Z) (omega : R) (use_four_wheels : bool) :
  paused g = false ->
  WHEEL_RADIUS g = 0 ->
  wheel_angles g use_four_wheels <> [] ->
  update g ax n omega use_four_wheels = Raise ZeroDivisionError.
Proof.
  intros Hp Hr Hne. unfold update. rewrite Hp. cbn [negb]. cbv zeta.
  unfold compute_wheel_velocities_jacobian.
  destruct (convert_to_body_frame _ _ _) as [v_bx v_by].
  now rewrite construct_jacobian_zero.
Qed.

Lemma update_zero_radius_raises_witness :
  paused (set_WHEEL_RADIUS 0 initial_globals) = false /\
  WHEEL_RADIUS (set_WHEEL_RADIUS 0 initial_globals) = 0 /\
  wheel_angles (set_WHEEL_RADIUS 0 initial_globals) false <> [] /\
  update (set_WHEEL_RADIUS 0 initial_globals) [] 90 0 false = Raise ZeroDivisionError.
Proof.
  assert (Hne : wheel_angles (set_WHEEL_RADIUS 0 initial_globals) false <> [])
    by discriminate.
  split; [ reflexivity | ]. split; [ reflexivity | ]. split; [ exact Hne | ].
  exact (update_zero_radius_raises (set_WHEEL_RADIUS 0 initial_globals) [] 90 0 false
           eq_refl eq_refl Hne).
Defined.

Lemma update_running_trace
    (g : Globals) (ax : Axes) (n : Z) (omega : R) (use_four_wheels : bool) :
  paused g = false ->
  WHEEL_RADIUS g <> 0 ->
  exists scene : Scene,
    update g ax n omega use_four_wheels = Ok (ax ++ [ax_clear; ax_clear; ax_draw scene]).
Proof.
  intros Hp Hr. unfold update. rewrite Hp. cbn [negb]. cbv zeta.
  rewrite compute_wheel_velocities_jacobian_nonzero by assumption. rewrite bind_Ok.
  unfold plot_robot. rewrite <- app_assoc. eexists. reflexivity.
Qed.

Lemma drawn_app (ax1 ax2 : Axes) : drawn (ax1 ++ ax2) = drawn ax1 ++ drawn ax2.
Proof. unfold drawn. apply omap_app. Qed.

(** X12.  While the session is not paused (and the wheel radius is not
    zero), every call of [update] draws exactly one picture and keeps the
    earlier ones in the history: after any sequence of calls the number of
    pictures drawn has grown by the number of calls, and the axes show a
    picture as soon as one call was made. *)
Theorem running_ticks_draw_one_each (g : Globals) (calls : list (Z * R * bool)) :
  paused g = false ->
  WHEEL_RADIUS g <> 0 ->
  forall ax : Axes,
    exists ax' : Axes,
      for_each (update_call g) calls ax = Ok ax' /\
      (exists scenes : list Scene,
          drawn ax' = drawn ax ++ scenes /\ length scenes = length calls) /\
      (calls = [] \/ exists scene : Scene, shown ax' = Some scene).
Proof.
  intros Hp Hr. induction calls as [ | [[n omega] four] calls IH]; intros ax.
  - exists ax. split; [ reflexivity | ]. split; [ | now left ].
    exists []. split; [ now rewrite app_nil_r | reflexivity ].
  - cbn [for_each update_call].
    destruct (update_running_trace g ax n omega four Hp Hr) as [scene Hu].
    rewrite Hu, bind_Ok.
    destruct (IH (ax ++ [ax_clear; ax_clear; ax_draw scene]))
      as (ax' & Hrun & (scenes & Hd & Hlen) & Hshown).
    exists ax'. split; [ exact Hrun | ]. split.
    + exists (scene :: scenes). split; [ | cbn [length]; now rewrite Hlen ].
      rewrite Hd, drawn_app. cbn. now rewrite <- app_assoc.
    + right. destruct Hshown as [-> | Hs]; [ | exact Hs ].
      cbn [for_each] in Hrun. injection Hrun as <-.
      exists scene. unfold shown.
      replace (ax ++ [ax_clear; ax_clear; ax_draw scene])
        with ((ax ++ [ax_clear; ax_clear]) ++ [ax_draw scene])
        by (now rewrite <- app_assoc).
      now rewrite last_snoc.
Qed.

Lemma running_ticks_draw_one_each_witness :
  paused initial_globals = false /\
  WHEEL_RADIUS initial_globals <> 0 /\
  exists ax' : Axes,
    for_each (update_call initial_globals) [(0%Z, 0, false); (1%Z, 0, false)] []
    = Ok ax' /\
    (exists scenes : list Scene,
        drawn ax' = drawn [] ++ scenes /\
        length scenes = length [(0%Z, 0, false); (1%Z, 0, false)]) /\
    ([(0%Z, 0, false); (1%Z, 0, false)] = [] \/
     exists scene : Scene, shown ax' = Some scene).
Proof.
  assert (Hr : WHEEL_RADIUS initial_globals <> 0) by (simpl; lra).
  split; [ reflexivity | ]. split; [ exact Hr | ].
  exact (running_ticks_draw_one_each initial_globals
           [(0%Z, 0, false); (1%Z, 0, false)] eq_refl Hr []).
Defined.

(** X13.  Delivering the same key event twice leaves the module state as it
    was: two presses of the space bar undo each other, and any other key
    never changed anything. *)
Theorem toggle_pause_twice (g : Globals) (event : KeyEvent) :
  toggle_pause (toggle_pause g event) event = g /\
  paused (toggle_pause g space_bar) = negb (paused g).
Proof.
  split; [ | reflexivity ].
  unfold toggle_pause. destruct (key event) as [k | ]; [ | reflexivity ].
  destruct (String.eqb k " "); [ | reflexivity ].
  destruct g. unfold set_paused. cbn. now rewrite negb_involutive.
Qed.

(** A timer tick of a paused session draws nothing and moves the frame
    source on by one frame. *)
Lemma animation_step_paused_advances (g : Globals) (a : FuncAnimation) :
  paused g = true ->
  exists a' : FuncAnimation,
    animation_step g a = Ok a' /\
    fargs_ax a' = fargs_ax a /\
    frames a' = frames a /\ repeat a' = repeat a /\
    forall m : nat,
      frame_at (frames a) (repeat a) (frame_seq a') m
      = frame_at (frames a) (repeat a) (frame_seq a) (S m).
Proof.
  intros Hp. unfold animation_step.
  destruct (next_frame (frames a) (repeat a) (frame_seq a)) as [[frame rest] | ] eqn:Hn.
  - unfold update. rewrite Hp. cbn [negb]. rewrite bind_Ok.
    eexists. repeat split. intros m. cbn [frame_seq frame_at]. now rewrite Hn.
  - exists a. repeat split. intros m. destruct m; cbn [frame_at]; now rewrite Hn.
Qed.

(** X14.  Pausing does not stop the frame counter.  In a paused session the
    timer ticks of the animation draw nothing but still consume frames:
    after [k] ticks the axes are as before, and the frame the next tick will
    pass to [update] is the one of tick [k] of a running session,
    [r = k mod 721], or 0 for [r = 720]; so the frames that fell into the
    pause are skipped when the session is resumed. *)
Theorem paused_ticks_consume_frames
    (g : Globals) (omega : R) (use_four_wheels : bool) (k : nat) :
  paused g = true ->
  exists a' : FuncAnimation,
    plt_show (mkFigure g [new_animation omega use_four_wheels])
             (replicate k (timer_event 0))
    = Ok (mkFigure g [a']) /\
    fargs_ax a' = [] /\
    frame_at (frames a') (repeat a') (frame_seq a') 0
    = Some (if (Z.of_nat k mod 721 =? 720)%Z then 0%Z else (Z.of_nat k mod 721)%Z).
Proof.
  intros Hp.
  assert (Hgen : forall (k : nat) (a : FuncAnimation),
             exists a' : FuncAnimation,
               plt_show (mkFigure g [a]) (replicate k (timer_event 0))
               = Ok (mkFigure g [a']) /\
               fargs_ax a' = fargs_ax a /\
               frames a' = frames a /\ repeat a' = repeat a /\
               forall m : nat,
                 frame_at (frames a) (repeat a) (frame_seq a') m
                 = frame_at (frames a) (repeat a) (frame_seq a) (k + m)%nat).
  { clear k. unfold plt_show. induction k as [ | k IH]; intros a.
    - exists a. repeat split.
    - cbn [replicate for_each dispatch fig_animations fig_globals].
      change ([a] !! 0%nat) with (Some a).
      destruct (animation_step_paused_advances g a Hp)
        as (a1 & Hstep & Hax & Hfs & Hrep & Hadv).
      rewrite Hstep, !bind_Ok. change (<[0%nat := a1]> [a]) with [a1].
      destruct (IH a1) as (a' & Hrun & Hax' & Hfs' & Hrep' & Hadv').
      exists a'. split; [ exact Hrun | ].
      split; [ congruence | ]. split; [ congruence | ]. split; [ congruence | ].
      intros m. rewrite Hfs, Hrep in Hadv'. rewrite Hadv', Hadv.
      reflexivity. }
  destruct (Hgen k (new_animation omega use_four_wheels))
    as (a' & Hrun & Hax & Hfs & Hrep & Hadv).
  exists a'. split; [ exact Hrun | ]. split; [ exact Hax | ].
  rewrite Hfs, Hrep, Hadv, Nat.add_0_r.
  exact (frame_of_tick_mod k).
Qed.

Lemma paused_ticks_consume_frames_witness :
  paused (set_paused true initial_globals) = true /\
  exists a' : FuncAnimation,
    plt_show (mkFigure (set_paused true initial_globals) [new_animation 0 false])
             (replicate 725 (timer_event 0))
    = Ok (mkFigure (set_paused true initial_globals) [a']) /\
    fargs_ax a' = [] /\
    frame_at (frames a') (repeat a') (frame_seq a') 0
    = Some (if (Z.of_nat 725 mod 721 =? 720)%Z then 0%Z else (Z.of_nat 725 mod 721)%Z).
Proof.
  split; [ reflexivity | ].
  exact (paused_ticks_consume_frames (set_paused true initial_globals) 0 false 725
           eq_refl).
Defined.

(** * Further properties of the user input *)

(** X15.  The answer counts as yes exactly when it is the single letter [y]
    or [Y]: nothing longer, such as [yes], and no other character does. *)
Theorem yes_answers (answer : string) :
  String.eqb (py_lower answer) "y" = true <-> (answer = "y" \/ answer = "Y")%string.
Proof.
  split.
  - intros H. destruct answer as [ | c [ | c' rest]].
    + discriminate H.
    + destruct c as [[] [] [] [] [] [] [] []]; vm_compute in H;
        try discriminate H; first [ left; reflexivity | right; reflexivity ].
    + cbn [py_lower] in H. cbn in H.
      destruct (Ascii.eqb (lower_ascii c) "y"); discriminate H.
  - intros [-> | ->]; reflexivity.
Qed.



(** X17.  Plotting both configurations: when the first answer is yes and the
    omega entry is accepted (a number, or empty for the default), the third
    question is not asked, so the rest of the input is left unread, the
    function returns [False], and [run_animation] creates two animations
    with the same omega, the 3-wheel one first and the 4-wheel one second. *)
Theorem plot_both_skips_wheel_question
    (py_float : string -> option R) (g : Globals) (a1 a2 : string)
    (rest : list Line) (w : R) :
  String.eqb (py_lower a1) "y" = true ->
  float_or py_float a2 (OMEGA g) = Some w ->
  let g' := set_OMEGA w (set_PLOT_BOTH true g) in
  get_user_inputs py_float g (line a1 :: line a2 :: rest) = Ok (false, g', rest) /\
  run_animation py_float g (line a1 :: line a2 :: rest)
  = Ok (mkFigure g' [new_animation w false; new_animation w true]).
Proof.
  intros Hy Hw. cbv zeta.
  assert (Hg : get_user_inputs py_float g (line a1 :: line a2 :: rest)
               = Ok (false, set_OMEGA w (set_PLOT_BOTH true g), rest)).
  { rewrite get_user_inputs_cases, Hw, Hy. reflexivity. }
  split; [ exact Hg | ]. unfold run_animation. rewrite Hg. reflexivity.
Qed.

Lemma plot_both_skips_wheel_question_witness :
  let py_float := fun _ : string => @None R in
  String.eqb (py_lower "Y") "y" = true /\
  float_or py_float "" (OMEGA initial_globals) = Some 0 /\
  get_user_inputs py_float initial_globals [line "Y"; line ""; line "y"]
  = Ok (false, set_OMEGA 0 (set_PLOT_BOTH true initial_globals), [line "y"]) /\
  run_animation py_float initial_globals [line "Y"; line ""; line "y"]
  = Ok (mkFigure (set_OMEGA 0 (set_PLOT_BOTH true initial_globals))
                 [new_animation 0 false; new_animation 0 true]).
Proof.
  cbv zeta. split; [ reflexivity | ]. split; [ reflexivity | ].
  exact (plot_both_skips_wheel_question (fun _ => None) initial_globals
           "Y" "" [line "y"] 0 eq_refl eq_refl).
Defined.

(** X18.  A single configuration: when the first answer is not yes and the
    omega entry is accepted as the number [w], the third answer selects the
    wheel set, [OMEGA] becomes [w], and [run_animation] creates one animation
    with that omega and that wheel set. *)
Theorem single_configuration_inputs
    (py_float : string -> option R) (g : Globals) (a1 a2 a3 : string)
    (rest : list Line) (w : R) :
  String.eqb (py_lower a1) "y" = false ->
  float_or py_float a2 (OMEGA g) = Some w ->
  let use_four_wheels := String.eqb (py_lower a3) "y" in
  let g' := set_OMEGA w (set_PLOT_BOTH false g) in
  get_user_inputs py_float g (line a1 :: line a2 :: line a3 :: rest)
  = Ok (use_four_wheels, g', rest) /\
  OMEGA g' = w /\
  run_animation py_float g (line a1 :: line a2 :: line a3 :: rest)
  = Ok (mkFigure g' [new_animation w use_four_wheels]).
Proof.
  intros Hy Hw. cbv zeta.
  assert (Hg : get_user_inputs py_float g (line a1 :: line a2 :: line a3 :: rest)
               = Ok (String.eqb (py_lower a3) "y",
                     set_OMEGA w (set_PLOT_BOTH false g), rest)).
  { rewrite get_user_inputs_cases, Hw, Hy. reflexivity. }
  split; [ exact Hg | ]. split; [ reflexivity | ].
  unfold run_animation. rewrite Hg. reflexivity.
Qed.

Lemma single_configuration_inputs_witness :
  let py_float := fun s : string => if String.eqb s "2" then Some 2 else None in
  String.eqb (py_lower "n") "y" = false /\
  float_or py_float "2" (OMEGA initial_globals) = Some 2 /\
  get_user_inputs py_float initial_globals [line "n"; line "2"; line "y"]
  = Ok (true, set_OMEGA 2 (set_PLOT_BOTH false initial_globals), []) /\
  OMEGA (set_OMEGA 2 (set_PLOT_BOTH false initial_globals)) = 2 /\
  run_animation py_float initial_globals [line "n"; line "2"; line "y"]
  = Ok (mkFigure (set_OMEGA 2 (set_PLOT_BOTH false initial_globals))
                 [new_animation 2 true]).
Proof.
  cbv zeta. split; [ reflexivity | ]. split; [ reflexivity | ].
  exact (single_configuration_inputs
           (fun s : string => if String.eqb s "2" then Some 2 else None)
           initial_globals "n" "2" "y" [] 2 eq_refl eq_refl).
Defined.

(** X19.  Three empty answers select the defaults without consulting the
    number parser: a single 3-wheel animation, with [OMEGA] left at the
    value it had. *)
Theorem empty_answers_give_defaults
    (py_float : string -> option R) (g : Globals) (rest : list Line) :
  let g' := set_OMEGA (OMEGA g) (set_PLOT_BOTH false g) in
  get_user_inputs py_float g (line "" :: line "" :: line "" :: rest)
  = Ok (false, g', rest) /\
  run_animation py_float g (line "" :: line "" :: line "" :: rest)
  = Ok (mkFigure g' [new_animation (OMEGA g) false]).
Proof.
  cbv zeta.
  assert (Hg : get_user_inputs py_float g (line "" :: line "" :: line "" :: rest)
               = Ok (false, set_OMEGA (OMEGA g) (set_PLOT_BOTH false g), rest)).
  { rewrite get_user_inputs_cases. reflexivity. }
  split; [ exact Hg | ]. unfold run_animation. rewrite Hg. reflexivity.
Qed.

Lemma wheel_question_state (g g' : Globals) (stdin rest : list Line) (b : bool) :
  wheel_question g stdin = Ok (b, g', rest) -> g' = g.
Proof.
  unfold wheel_question. destruct stdin as [ | [a | ] tl]; cbn [input]; intros H;
    try discriminate H. now injection H as _ <- _.
Qed.

(** X20.  Whatever is typed, [get_user_inputs] assigns [OMEGA] and
    [PLOT_BOTH] only: the radii, the wheel width, both angle lists and the
    pause flag are those it was called with. *)
Theorem get_user_inputs_frame
    (py_float : string -> option R) (g g' : Globals) (stdin rest : list Line)
    (use_four_wheels : bool) :
  get_user_inputs py_float g stdin = Ok (use_four_wheels, g', rest) ->
  WHEEL_RADIUS g' = WHEEL_RADIUS g /\ WHEEL_WIDTH g' = WHEEL_WIDTH g /\
  ROBOT_RADIUS g' = ROBOT_RADIUS g /\ WHEEL_ANGLES g' = WHEEL_ANGLES g /\
  F_WHEEL_ANGLES g' = F_WHEEL_ANGLES g /\ paused g' = paused g.
Proof.
  intros H.
  assert (Hg : exists (w : R) (b : bool), g' = set_OMEGA w (set_PLOT_BOTH b g)).
  { destruct stdin as [ | [a1 | ] tl].
    - discriminate H.
    - destruct tl as [ | [a2 | ] tl].
      + discriminate H.
      + rewrite get_user_inputs_cases in H.
        destruct (float_or py_float a2 (OMEGA g)) as [w | ];
          [ destruct (String.eqb (py_lower a1) "y") | ].
        * injection H as _ <- _. now exists w, true.
        * apply wheel_question_state in H. now exists w, false.
        * apply wheel_question_state in H. now exists (OMEGA g), false.
      + destruct (get_user_inputs_short_or_undecodable py_float g a1 tl)
          as (_ & _ & _ & E).
        rewrite E in H. apply wheel_question_state in H.
        now exists (OMEGA g), false.
    - destruct (get_user_inputs_short_or_undecodable py_float g "" tl)
        as (_ & _ & E & _).
      rewrite E in H. apply wheel_question_state in H.
      now exists (OMEGA g), false. }
  destruct Hg as (w & b & ->). repeat split.
Qed.

Lemma get_user_inputs_frame_witness :
  let py_float := fun _ : string => @None R in
  get_user_inputs py_float initial_globals [line "y"; line ""]
  = Ok (false, set_OMEGA 0 (set_PLOT_BOTH true initial_globals), []) /\
  WHEEL_RADIUS (set_OMEGA 0 (set_PLOT_BOTH true initial_globals))
  = WHEEL_RADIUS initial_globals /\
  paused (set_OMEGA 0 (set_PLOT_BOTH true initial_globals)) = paused initial_globals.
Proof.
  cbv zeta.
  assert (H : get_user_inputs (fun _ : string => @None R) initial_globals
                [line "y"; line ""]
              = Ok (false, set_OMEGA 0 (set_PLOT_BOTH true initial_globals), []))
    by reflexivity.
  split; [ exact H | ].
  destruct (get_user_inputs_frame _ _ _ _ _ _ H) as (H1 & _ & _ & _ & _ & H6).
  split; [ exact H1 | exact H6 ].
Defined.

(** * Properties of the wheel loop of [plot_robot] *)

Lemma plot_wheel_in_range
    (g : Globals) (wheel_velocities : list R) (orientation_rad theta v : R) (i : nat) :
  wheel_velocities !! i = Some v ->
  exists w : WheelArtists,
    plot_wheel g wheel_velocities orientation_rad (i, theta) = Ok w.
Proof.
  intros Hv. unfold plot_wheel, getitem. cbv zeta. rewrite Hv, bind_Ok.
  eexists. reflexivity.
Qed.

Lemma plot_wheel_out_of_range
    (g : Globals) (wheel_velocities : list R) (orientation_rad theta : R) (i : nat) :
  wheel_velocities !! i = None ->
  plot_wheel g wheel_velocities orientation_rad (i, theta) = Raise IndexError.
Proof.
  intros Hv. unfold plot_wheel, getitem. cbv zeta. now rewrite Hv.
Qed.

Lemma collect_plot_wheel
    (g : Globals) (wheel_velocities : list R) (orientation_rad : R) (angles : list R) :
  forall k : nat,
    ((k + length angles <= length wheel_velocities)%nat ->
     exists ws : list WheelArtists,
       collect (plot_wheel g wheel_velocities orientation_rad)
               (enumerate_from k angles) = Ok ws /\
       length ws = length angles) /\
    (angles <> [] ->
     (length wheel_velocities < k + length angles)%nat ->
     collect (plot_wheel g wheel_velocities orientation_rad)
             (enumerate_from k angles) = Raise IndexError).
Proof.
  induction angles as [ | theta angles IH]; intros k.
  - split; [ intros _; exists []; split; reflexivity | intros H; now elim H ].
  - cbn [enumerate_from collect length].
    destruct (wheel_velocities !! k) as [v | ] eqn:Hk.
    + destruct (plot_wheel_in_range g _ orientation_rad theta v k Hk) as [w ->].
      apply lookup_lt_Some in Hk. rewrite bind_Ok.
      destruct (IH (S k)) as [IHok IHerr]. split.
      * intros Hlen. destruct IHok as (ws & -> & Hws); [ lia | ].
        rewrite bind_Ok. eexists. split; [ reflexivity | ]. cbn [length]. lia.
      * intros _ Hlen. rewrite IHerr; [ reflexivity | | lia ].
        intros ->. cbn [length] in Hlen. lia.
    + rewrite (plot_wheel_out_of_range g _ orientation_rad theta k Hk).
      apply lookup_ge_None in Hk. split; [ lia | reflexivity ].
Qed.

(** X21.  The wheel loop reads one velocity per mounting angle: given at
    least as many velocities as wheels it draws one wheel per angle, and
    given fewer it stops with [IndexError]. *)
Theorem plot_wheels_needs_all_velocities
    (g : Globals) (wheel_velocities : list R) (orientation : R)
    (use_four_wheels : bool) :
  ((length (wheel_angles g use_four_wheels) <= length wheel_velocities)%nat ->
   exists ws : list WheelArtists,
     plot_wheels g wheel_velocities orientation use_four_wheels = Ok ws /\
     length ws = length (wheel_angles g use_four_wheels)) /\
  ((length wheel_velocities < length (wheel_angles g use_four_wheels))%nat ->
   plot_wheels g wheel_velocities orientation use_four_wheels = Raise IndexError).
Proof.
  unfold plot_wheels, enumerate. cbv zeta.
  destruct (collect_plot_wheel g wheel_velocities (radians orientation)
              (wheel_angles g use_four_wheels) 0) as [Hok Herr].
  split; [ exact Hok | ]. intros Hlen. apply Herr; [ | exact Hlen ].
  intros Hnil. rewrite Hnil in Hlen. cbn [length] in Hlen. lia.
Qed.

(** X22.  In a tick the wheel loop cannot fail: the velocities computed for a
    wheel set are as many as its wheels, so drawing that wheel set from them
    yields one wheel per mounting angle. *)
Theorem computed_velocities_plot
    (g : Globals) (s d o omega orientation : R) (use_four_wheels : bool) :
  WHEEL_RADIUS g <> 0 ->
  exists (wv : list R) (ws : list WheelArtists),
    compute_wheel_velocities_jacobian g s d o omega use_four_wheels = Ok wv /\
    plot_wheels g wv orientation use_four_wheels = Ok ws /\
    length ws = length (wheel_angles g use_four_wheels).
Proof.
  intros Hr. eexists.
  unfold plot_wheels, enumerate. cbv zeta.
  edestruct (collect_plot_wheel g) as [Hok _].
  destruct Hok as (ws & Hws & Hlen);
    [ | exists ws; split;
        [ now apply compute_wheel_velocities_jacobian_nonzero
        | split; [ exact Hws | exact Hlen ] ] ].
  rewrite length_map. cbn. lia.
Qed.

Lemma computed_velocities_plot_witness :
  WHEEL_RADIUS initial_globals <> 0 /\
  exists (wv : list R) (ws : list WheelArtists),
    compute_wheel_velocities_jacobian initial_globals 1 90 0 0 true = Ok wv /\
    plot_wheels initial_globals wv 0 true = Ok ws /\
    length ws = length (wheel_angles initial_globals true).
Proof.
  assert (Hr : WHEEL_RADIUS initial_globals <> 0) by (simpl; lra).
  split; [ exact Hr | exact (computed_velocities_plot initial_globals 1 90 0 0 0 true Hr) ].
Defined.

Lemma radians_degrees (x : R) : radians (degrees x) = x.
Proof. unfold radians, degrees. field. apply PI_neq0. Qed.

Lemma cos_quarter_turn (x : R) : cos (x + PI / 2) = - sin x.
Proof. rewrite cos_plus, cos_PI2, sin_PI2. ring. Qed.

Lemma sin_quarter_turn (x : R) : sin (x + PI / 2) = cos x.
Proof. rewrite sin_plus, cos_PI2, sin_PI2. ring. Qed.

Lemma sin_cos_square (x : R) : sin x * sin x + cos x * cos x = 1.
Proof. pose proof (sin2_cos2 x) as H. unfold Rsqr in H. exact H. Qed.

(** X23.  Every wheel is drawn where it is mounted: its label carries its
    index and sits on the circle of radius [ROBOT_RADIUS] at the mounting
    angle turned by the orientation, and the rectangle of the wheel, once
    turned about its anchor, is centred on that very point. *)
Theorem wheel_drawn_at_mounting_point
    (g : Globals) (wheel_velocities : list R) (orientation_rad theta : R) (i : nat)
    (w : WheelArtists) :
  plot_wheel g wheel_velocities orientation_rad (i, theta) = Ok w ->
  label_index w = i /\
  label_x w = ROBOT_RADIUS g * cos (theta + orientation_rad) /\
  label_y w = ROBOT_RADIUS g * sin (theta + orientation_rad) /\
  label_x w ^ 2 + label_y w ^ 2 = ROBOT_RADIUS g ^ 2 /\
  rectangle_centre (wheel_patch w) = (label_x w, label_y w).
Proof.
  unfold plot_wheel. cbv zeta.
  destruct (getitem wheel_velocities i) as [v | e]; [ | discriminate ].
  rewrite bind_Ok. intros [= <-].
  cbn [label_index label_x label_y wheel_patch].
  set (phi := theta + orientation_rad).
  split; [ reflexivity | ]. split; [ reflexivity | ]. split; [ reflexivity | ].
  split.
  - replace ((ROBOT_RADIUS g * cos phi) ^ 2 + (ROBOT_RADIUS g * sin phi) ^ 2)
      with (ROBOT_RADIUS g ^ 2 * (sin phi * sin phi + cos phi * cos phi)) by ring.
    rewrite sin_cos_square. ring.
  - unfold rectangle_centre.
    cbn [rectangle_x rectangle_y rectangle_width rectangle_height rectangle_angle].
    rewrite radians_degrees, cos_quarter_turn, sin_quarter_turn.
    f_equal; ring.
Qed.

Lemma wheel_drawn_at_mounting_point_witness :
  exists w : WheelArtists,
    plot_wheel initial_globals [1; 2; 3] 0 (1%nat, PI) = Ok w /\
    label_index w = 1%nat /\
    label_x w = ROBOT_RADIUS initial_globals * cos (PI + 0) /\
    label_y w = ROBOT_RADIUS initial_globals * sin (PI + 0) /\
    label_x w ^ 2 + label_y w ^ 2 = ROBOT_RADIUS initial_globals ^ 2 /\
    rectangle_centre (wheel_patch w) = (label_x w, label_y w).
Proof.
  eexists. split; [ reflexivity | ].
  exact (wheel_drawn_at_mounting_point initial_globals [1; 2; 3] 0 PI 1 _ eq_refl).
Defined.

Lemma velocity_arrow_vector_aux (g : Globals) (phi buffer_x buffer_y v : R) :
  (Rabs v < 0.1 -> velocity_arrow g phi buffer_x buffer_y v = None) /\
  (0.1 <= Rabs v ->
   exists a : Arrow,
     velocity_arrow g phi buffer_x buffer_y v = Some a /\
     arrow_dx a = 0.05 * WHEEL_RADIUS g * v * sin phi /\
     arrow_dy a = - (0.05 * WHEEL_RADIUS g * v * cos phi)).
Proof.
  unfold velocity_arrow. cbv zeta.
  destruct (Rle_dec 0.1 (Rabs v)) as [Hge | Hlt].
  - split; [ intros H; lra | ]. intros _.
    destruct (Rlt_dec v 0) as [Hneg | Hpos]; eexists;
      (split; [ reflexivity | ]); cbn [arrow_dx arrow_dy];
      rewrite cos_quarter_turn, sin_quarter_turn.
    + rewrite Rabs_left by assumption.
      replace 0.3 with (3 / 10) by lra. replace 0.05 with (5 / 100) by lra.
      split; field.
    + rewrite Rabs_right by lra.
      replace 0.3 with (3 / 10) by lra. replace 0.05 with (5 / 100) by lra.
      split; field.
  - split; [ reflexivity | ]. intros H. contradiction.
Qed.

(** X24.  The velocity arrow of a wheel is drawn exactly when the velocity
    [v] is at least 0.1 in absolute value, and then it is the vector
    [0.05 * r * v * (sin phi, - cos phi)], [phi] the turned mounting angle:
    proportional to the signed velocity, reversed with its sign, and never
    clamped. *)
Theorem velocity_arrow_vector (g : Globals) (phi buffer_x buffer_y v : R) :
  (Rabs v < 0.1 -> velocity_arrow g phi buffer_x buffer_y v = None) /\
  (0.1 <= Rabs v ->
   exists a : Arrow,
     velocity_arrow g phi buffer_x buffer_y v = Some a /\
     arrow_dx a = 0.05 * WHEEL_RADIUS g * v * sin phi /\
     arrow_dy a = - (0.05 * WHEEL_RADIUS g * v * cos phi)).
Proof. exact (velocity_arrow_vector_aux g phi buffer_x buffer_y v). Qed.

(** X25.  When a wheel has a velocity arrow, the arrow is tangent to the
    platform circle at the wheel (perpendicular to the radius through the
    label) and its length is [0.05 * r * |v|]. *)
Theorem wheel_arrow_tangent
    (g : Globals) (wheel_velocities : list R) (orientation_rad theta : R) (i : nat)
    (w : WheelArtists) (a : Arrow) (v : R) :
  plot_wheel g wheel_velocities orientation_rad (i, theta) = Ok w ->
  wheel_velocities !! i = Some v ->
  wheel_arrow w = Some a ->
  0.1 <= Rabs v /\
  arrow_dx a * label_x w + arrow_dy a * label_y w = 0 /\
  arrow_dx a ^ 2 + arrow_dy a ^ 2 = (0.05 * WHEEL_RADIUS g * Rabs v) ^ 2.
Proof.
  unfold plot_wheel, getitem. cbv zeta. intros Hw Hv. rewrite Hv, bind_Ok in Hw.
  injection Hw as <-. cbn [wheel_arrow label_x label_y].
  set (phi := theta + orientation_rad). intros Ha.
  match type of Ha with
  | velocity_arrow _ _ ?bx ?by' _ = _ =>
      destruct (velocity_arrow_vector_aux g phi bx by' v) as [Hnone Hsome]
  end.
  destruct (Rlt_le_dec (Rabs v) 0.1) as [Hlt | Hge].
  - rewrite (Hnone Hlt) in Ha. discriminate Ha.
  - destruct (Hsome Hge) as (a' & Ha' & Hdx & Hdy).
    rewrite Ha' in Ha. injection Ha as <-. split; [ exact Hge | ].
    rewrite Hdx, Hdy. split; [ ring | ].
    replace ((0.05 * WHEEL_RADIUS g * v * sin phi) ^ 2
             + (- (0.05 * WHEEL_RADIUS g * v * cos phi)) ^ 2)
      with ((0.05 * WHEEL_RADIUS g) ^ 2 * (v * v)
            * (sin phi * sin phi + cos phi * cos phi)) by ring.
    rewrite sin_cos_square.
    replace ((0.05 * WHEEL_RADIUS g * Rabs v) ^ 2)
      with ((0.05 * WHEEL_RADIUS g) ^ 2 * (Rabs v * Rabs v)) by ring.
    fold (Rsqr (Rabs v)). rewrite <- Rsqr_abs. unfold Rsqr. ring.
Qed.

Lemma plot_wheel_with_arrow
    (g : Globals) (wheel_velocities : list R) (orientation_rad theta v : R) (i : nat) :
  wheel_velocities !! i = Some v ->
  0.1 <= Rabs v ->
  exists (w : WheelArtists) (a : Arrow),
    plot_wheel g wheel_velocities orientation_rad (i, theta) = Ok w /\
    wheel_arrow w = Some a.
Proof.
  intros Hv Hge. unfold plot_wheel, getitem. cbv zeta. rewrite Hv, bind_Ok.
  match goal with
  | |- context [velocity_arrow _ ?phi ?bx ?by' _] =>
      destruct (proj2 (velocity_arrow_vector_aux g phi bx by' v) Hge) as (a & Ha & _)
  end.
  eexists. exists a. split; [ reflexivity | exact Ha ].
Qed.

Lemma wheel_arrow_tangent_witness :
  exists (w : WheelArtists) (a : Arrow),
    plot_wheel initial_globals [1; 2; 3] 0 (1%nat, PI) = Ok w /\
    [1; 2; 3] !! 1%nat = Some 2 /\
    wheel_arrow w = Some a /\
    0.1 <= Rabs 2 /\
    arrow_dx a * label_x w + arrow_dy a * label_y w = 0 /\
    arrow_dx a ^ 2 + arrow_dy a ^ 2
    = (0.05 * WHEEL_RADIUS initial_globals * Rabs 2) ^ 2.
Proof.
  assert (Hge : 0.1 <= Rabs 2) by (rewrite Rabs_right; lra).
  destruct (plot_wheel_with_arrow initial_globals [1; 2; 3] 0 PI 2 1 eq_refl Hge)
    as (w & a & Hw & Ha).
  exists w, a. split; [ exact Hw | ]. split; [ reflexivity | ]. split; [ exact Ha | ].
  exact (wheel_arrow_tangent initial_globals [1; 2; 3] 0 PI 1 w a 2 Hw eq_refl Ha).
Defined.
